(** * Bookstore catalog service (cmd/main.go): data-access layer

    A shallow embedding of the record repository, the identifier
    allocator, the query/aggregation layer, the seeding of the
    collection at start-up and the HTTP handlers of [cmd/main.go], with
    the properties of the specification, and further properties read
    off the code, stated over it.

    Modelling conventions.
    - Go [string] is [string] (a sequence of bytes); Go [int] and [int64]
      are [Z] with the 64-bit wrap-around written out ([wrap64]); the
      deployment is linux/amd64, so [int] is 64 bits wide.
    - The MongoDB collection is a list of documents in natural
      (insertion) order together with a flag telling whether the server
      answers; every driver call on a collection that does not answer
      returns an error, as the Go driver does.  The collection also
      carries the case folding of the server's regular expressions,
      which the code does not choose.
    - The process-wide variable [idCounter] is passed in and out of the
      functions that read or write it.
    - Go maps ([map[string]interface{}], [map[string][]string]) are
      [gmap string _]. *)

From Stdlib Require Import ZArith Ascii String List Lia DecimalString OrderedTypeEx.
From Stdlib Require Import DecimalPos DecimalZ.
From stdpp Require Import base gmap strings list.

Open Scope Z_scope.

(* ================================================================== *)
(** ** Strings and integers of the Go runtime                          *)
(* ================================================================== *)

Module GoString.

Definition byte (c : ascii) : N := N_of_ascii c.

Fixpoint dropBytes (n : nat) (s : string) : string :=
  match n, s with
  | S n', String _ r => dropBytes n' r
  | _, _ => s
  end.

(** Lowering of an ASCII letter; every other byte is left alone. *)
Definition toLower (c : ascii) : ascii :=
  let x := byte c in
  if ((65 <=? x) && (x <=? 90))%N then ascii_of_N (x + 32) else c.

(** The text with its ASCII letters lowered. *)
Fixpoint lowerASCII (s : string) : string :=
  match s with
  | EmptyString => EmptyString
  | String c r => String (toLower c) (lowerASCII r)
  end.

(** A UTF-8 continuation byte, 10xxxxxx. *)
Definition isCont (c : ascii) : bool :=
  let x := byte c in ((128 <=? x) && (x <=? 191))%N.

Definition startsWithCont (s : string) : bool :=
  match s with
  | String b _ => isCont b
  | EmptyString => false
  end.

(** The characters of a UTF-8 text, each as the string of its bytes: a
    character begins at every byte that is not a continuation byte and
    takes the continuation bytes that follow it. *)
Fixpoint chars (s : string) : list string :=
  match s with
  | EmptyString => []
  | String c r =>
      match chars r with
      | ch :: chs =>
          if startsWithCont r then String c ch :: chs
          else String c EmptyString :: ch :: chs
      | [] => [String c EmptyString]
      end
  end.

End GoString.

Module Strconv.
Import GoString.

(** 64-bit two's complement wrap-around of Go's [int64] arithmetic. *)
Definition wrap64 (z : Z) : Z := (z + 2 ^ 63) mod 2 ^ 64 - 2 ^ 63.

Definition minInt64 : Z := - 2 ^ 63.

Definition isDigit (c : ascii) : bool :=
  let x := byte c in ((48 <=? x) && (x <=? 57))%N.

Definition digitVal (c : ascii) : Z := Z.of_N (byte c) - 48.

(** The digit loop of [strconv.ParseUint] in base 10: every byte has to
    be a decimal digit. *)
Fixpoint parseDigits (acc : Z) (s : string) : option Z :=
  match s with
  | EmptyString => Some acc
  | String c r =>
      if isDigit c then parseDigits (10 * acc + digitVal c) r else None
  end.

Definition parseUint (s : string) : option Z :=
  match s with
  | EmptyString => None
  | _ => parseDigits 0 s
  end.

(** [strconv.ParseInt(s, 10, 64)]: [Some v] when the error is nil.  An
    optional sign, at least one digit, nothing else, and the value in
    the range of [int64]. *)
Definition ParseInt (s : string) : option Z :=
  match s with
  | EmptyString => None
  | String c r =>
      let '(neg, digits) :=
        if Ascii.eqb c "+" then (false, r)
        else if Ascii.eqb c "-" then (true, r)
        else (false, s) in
      match parseUint digits with
      | None => None
      | Some un =>
          if negb neg && (2 ^ 63 <=? un) then None
          else if neg && (2 ^ 63 <? un) then None
          else Some (if neg then - un else un)
      end
  end.

(** [strconv.FormatInt(z, 10)] and [strconv.Itoa]. *)
Definition FormatInt (z : Z) : string := NilEmpty.string_of_int (Z.to_int z).

End Strconv.

Module Fmt.
Import GoString Strconv.

(** Width in bytes of the space rune at the head of [s] (0 when the
    head is not a space): the table [space] of fmt/scan.go, with the
    runes above U+007F in their UTF-8 encoding. *)
Definition spaceWidth (s : string) : nat :=
  match s with
  | String a r =>
      let x := byte a in
      if (((9 <=? x) && (x <=? 13)) || (x =? 32))%N then 1%nat
      else
        match r with
        | String b r' =>
            let y := byte b in
            if ((x =? 194) && ((y =? 133) || (y =? 160)))%N then 2%nat
            else
              match r' with
              | String c _ =>
                  let z := byte c in
                  if ((x =? 225) && (y =? 154) && (z =? 128))%N then 3%nat
                  else if ((x =? 226) && (y =? 128) &&
                           (((128 <=? z) && (z <=? 138)) || (z =? 168)
                            || (z =? 169) || (z =? 175)))%N then 3%nat
                  else if ((x =? 226) && (y =? 129) && (z =? 159))%N then 3%nat
                  else if ((x =? 227) && (y =? 128) && (z =? 128))%N then 3%nat
                  else 0%nat
              | EmptyString => 0%nat
              end
        | EmptyString => 0%nat
        end
  | EmptyString => 0%nat
  end.

(** The scanner method [SkipSpace] with [nlIsSpace = false], as [Sscanf]
    sets it: a newline among the leading spaces is the error "unexpected
    newline" ([None]).  Each round consumes at least one byte, so [fuel]
    equal to the length of the input is never exhausted. *)
Fixpoint SkipSpace (fuel : nat) (s : string) : option string :=
  match fuel with
  | O => Some s
  | S fuel' =>
      match s with
      | EmptyString => Some s
      | String a _ =>
          if (byte a =? 10)%N then None
          else
            match spaceWidth s with
            | O => Some s
            | w => SkipSpace fuel' (dropBytes w s)
            end
      end
  end.

(** The longest prefix of decimal digits and what follows it. *)
Fixpoint spanDigits (s : string) : string * string :=
  match s with
  | String c r =>
      if isDigit c then let '(d, rest) := spanDigits r in (String c d, rest)
      else (EmptyString, s)
  | EmptyString => (EmptyString, EmptyString)
  end.

(** [fmt.Sscanf(s, "%d", &v)]: [Some v] when it returns [(1, nil)],
    [None] when it returns an error (it then stores nothing).  Leading
    spaces are skipped, an optional sign and the longest run of digits
    form the token, the token goes through [ParseInt]; input after the
    token is left unread and is no error. *)
Definition Sscanf_d (s : string) : option Z :=
  match SkipSpace (String.length s) s with
  | None => None
  | Some s1 =>
      match s1 with
      | EmptyString => None
      | String c r =>
          let '(sgn, s2) :=
            if Ascii.eqb c "+" || Ascii.eqb c "-"
            then (String c EmptyString, r) else (EmptyString, s1) in
          let '(digits, _) := spanDigits s2 in
          match digits with
          | EmptyString => None
          | _ => ParseInt (String.append sgn digits)
          end
      end
  end.

End Fmt.

Import GoString Strconv Fmt.

(* ================================================================== *)
(** ** Data model                                                      *)
(* ================================================================== *)

(** [type BookStore struct]: a document of the collection. *)
Record BookStore := {
  ID : string;
  BookName : string;
  BookAuthor : string;
  BookISBN : string;
  BookPages : Z;
  BookYear : Z
}.

(** [type BookRequest struct]: the body of a create or update request;
    every field arrives as a string. *)
Module Request.
Record BookRequest := {
  ID : string;
  Title : string;
  Author : string;
  Pages : string;
  Edition : string;
  Year : string
}.
End Request.
Abbreviation BookRequest := Request.BookRequest.

(** [interface{}] as far as the handlers fill it. *)
Inductive value :=
| VString (s : string)
| VInt (z : Z)
| VStrings (l : list string).

(** Go errors, told apart by their message as the handlers do.
    [errDriver] stands for whatever error the driver returns when the
    server does not answer; the text of such an error is the driver's
    and is not modelled: the message [Error] gives for it is a stand-in,
    of which the handlers use one thing only, that it is neither of the
    two messages they compare with. *)
Inductive error :=
| errBookExists      (* fmt.Errorf("book already exists") *)
| errBookNotFound    (* fmt.Errorf("book not found") *)
| errNoDocuments     (* mongo.ErrNoDocuments *)
| errDriver.         (* any error of the driver when the server does not answer *)

Definition Error (e : error) : string :=
  match e with
  | errBookExists => "book already exists"
  | errBookNotFound => "book not found"
  | errNoDocuments => "mongo: no documents in result"
  | errDriver => "server selection error"
  end.

Inductive result (A : Type) :=
| Ok (a : A)
| Err (e : error).
Arguments Ok {A} a.
Arguments Err {A} e.

(* ================================================================== *)
(** ** The document store                                              *)
(* ================================================================== *)

Module Mongo.

Inductive bsonValue :=
| BString (s : string)
| BInt (z : Z).

(** The document the driver's struct codec writes for a [BookStore]:
    one key per field, the field name in lower case.  No document of
    this program has any other key ("bookedition" in particular). *)
Definition field (key : string) (b : BookStore) : option bsonValue :=
  if String.eqb key "id" then Some (BString (ID b))
  else if String.eqb key "bookname" then Some (BString (BookName b))
  else if String.eqb key "bookauthor" then Some (BString (BookAuthor b))
  else if String.eqb key "bookisbn" then Some (BString (BookISBN b))
  else if String.eqb key "bookpages" then Some (BInt (BookPages b))
  else if String.eqb key "bookyear" then Some (BInt (BookYear b))
  else None.

(** [$set] of one key. *)
Definition setField (key : string) (v : bsonValue) (b : BookStore) : BookStore :=
  match v with
  | BString s =>
      if String.eqb key "id" then
        {| ID := s; BookName := BookName b; BookAuthor := BookAuthor b;
           BookISBN := BookISBN b; BookPages := BookPages b; BookYear := BookYear b |}
      else if String.eqb key "bookname" then
        {| ID := ID b; BookName := s; BookAuthor := BookAuthor b;
           BookISBN := BookISBN b; BookPages := BookPages b; BookYear := BookYear b |}
      else if String.eqb key "bookauthor" then
        {| ID := ID b; BookName := BookName b; BookAuthor := s;
           BookISBN := BookISBN b; BookPages := BookPages b; BookYear := BookYear b |}
      else if String.eqb key "bookisbn" then
        {| ID := ID b; BookName := BookName b; BookAuthor := BookAuthor b;
           BookISBN := s; BookPages := BookPages b; BookYear := BookYear b |}
      else b
  | BInt z =>
      if String.eqb key "bookpages" then
        {| ID := ID b; BookName := BookName b; BookAuthor := BookAuthor b;
           BookISBN := BookISBN b; BookPages := z; BookYear := BookYear b |}
      else if String.eqb key "bookyear" then
        {| ID := ID b; BookName := BookName b; BookAuthor := BookAuthor b;
           BookISBN := BookISBN b; BookPages := BookPages b; BookYear := z |}
      else b
  end.

Definition applySet (upd : list (string * bsonValue)) (b : BookStore) : BookStore :=
  fold_left (fun acc kv => setField (fst kv) (snd kv) acc) upd b.

(** *** Regular expressions of the store

    The store interprets the operand of [$regex] as a regular
    expression over the characters of the text.  The fragment modelled
    here has two kinds of atoms, a literal character and the wildcard
    [.]; a pattern that contains any other metacharacter is outside the
    model ([regexCompile] answers [None]).  With option "i" a literal
    matches a character when the two are equal after the case folding
    of the server's engine, which the compiled pattern carries; the
    wildcard matches any one character other than newline. *)
Inductive atom :=
| Lit (ch : string)
| Dot.

Record regex := {
  foldOf : string -> string;    (* case folding of a character *)
  atoms : list atom
}.

Definition isMeta (c : ascii) : bool :=
  existsb (Ascii.eqb c) (list_ascii_of_string "\^$.|?*+()[]{}").

Definition isMetaChar (ch : string) : bool :=
  match ch with
  | String c EmptyString => isMeta c
  | _ => false
  end.

Fixpoint compileChars (chs : list string) : option (list atom) :=
  match chs with
  | [] => Some []
  | ch :: rest =>
      match compileChars rest with
      | None => None
      | Some re =>
          if String.eqb ch "." then Some (Dot :: re)
          else if isMetaChar ch then None
          else Some (Lit ch :: re)
      end
  end.

Definition regexCompile (fold : string -> string) (pattern : string) : option regex :=
  match compileChars (chars pattern) with
  | None => None
  | Some re => Some {| foldOf := fold; atoms := re |}
  end.

Definition newline : string := String (ascii_of_N 10) EmptyString.

Definition atomMatches (fold : string -> string) (a : atom) (ch : string) : bool :=
  match a with
  | Lit l => String.eqb (fold l) (fold ch)
  | Dot => negb (String.eqb ch newline)
  end.

(** The atoms match the characters at the head of the subject. *)
Fixpoint matchHere (fold : string -> string) (re : list atom) (subject : list string)
    : bool :=
  match re, subject with
  | [], _ => true
  | a :: re', ch :: rest => atomMatches fold a ch && matchHere fold re' rest
  | _ :: _, [] => false
  end.

(** Unanchored search: the pattern may match at any character. *)
Fixpoint regexSearch (fold : string -> string) (re : list atom) (subject : list string)
    : bool :=
  matchHere fold re subject
  || match subject with
     | _ :: rest => regexSearch fold re rest
     | [] => false
     end.

Definition regexMatches (re : regex) (t : string) : bool :=
  regexSearch (foldOf re) (atoms re) (chars t).

(** *** Filters *)
Inductive cond :=
| Eq (v : bsonValue)          (* key: v *)
| Exists (e : bool)           (* key: {"$exists": e} *)
| RegexI (re : regex).        (* key: {"$regex": ..., "$options": "i"} *)

(** [bson.M]: all conditions hold. *)
Definition bsonM := list (string * cond).

Inductive filter :=
| M (m : bsonM)
| Or (ms : list bsonM).       (* {"$or": [...]} *)

(** [bson.D{{}}]: one element with the empty key and a nil value, a
    condition every document of this program satisfies. *)
Definition emptyFilter : filter := M [].

Definition condHolds (c : cond) (v : option bsonValue) : bool :=
  match c, v with
  | Eq (BString s), Some (BString t) => String.eqb s t
  | Eq (BInt x), Some (BInt y) => x =? y
  | Exists e, Some _ => e
  | Exists e, None => negb e
  | RegexI re, Some (BString t) => regexMatches re t
  | _, _ => false
  end.

Definition matchesM (m : bsonM) (b : BookStore) : bool :=
  forallb (fun kc => condHolds (snd kc) (field (fst kc) b)) m.

Definition matches (f : filter) (b : BookStore) : bool :=
  match f with
  | M m => matchesM m b
  | Or ms => existsb (fun m => matchesM m b) ms
  end.

(** *** Sorting ([$sort]) in BSON comparison order: a missing field
    sorts before numbers, numbers before strings; strings compare byte
    by byte (no collation is set anywhere in the program). *)
Definition bsonLeb (x y : option bsonValue) : bool :=
  match x, y with
  | None, _ => true
  | Some _, None => false
  | Some (BInt a), Some (BInt b) => a <=? b
  | Some (BInt _), Some (BString _) => true
  | Some (BString _), Some (BInt _) => false
  | Some (BString s), Some (BString t) => String.leb s t
  end.

Fixpoint insertDesc (key : string) (b : BookStore) (l : list BookStore) : list BookStore :=
  match l with
  | [] => [b]
  | x :: r =>
      if bsonLeb (field key x) (field key b) then b :: l
      else x :: insertDesc key b r
  end.

Definition sortDesc (key : string) (l : list BookStore) : list BookStore :=
  fold_right (insertDesc key) [] l.

Inductive stage :=
| Match (m : bsonM)           (* {"$match": m} *)
| SortDesc (key : string)     (* {"$sort": {key: -1}} *)
| Limit (n : nat).            (* {"$limit": n} *)

Definition runStage (st : stage) (l : list BookStore) : list BookStore :=
  match st with
  | Match m => List.filter (matchesM m) l
  | SortDesc key => sortDesc key l
  | Limit n => firstn n l
  end.

(** *** The collection handle and the driver calls *)
Record Collection := {
  docs : list BookStore;          (* the documents, in natural order *)
  reachable : bool;               (* does the server answer? *)
  foldBeyond : string -> string   (* case folding of the server's regular
                                     expressions: what it does to a character
                                     once its ASCII letters are lowered *)
}.

(** The case folding of the server's regular-expression engine.  It is
    the engine's own and is not fixed here; all that is built in is that
    it does not tell an ASCII letter from its other case. *)
Definition caseFold (coll : Collection) (ch : string) : string :=
  foldBeyond coll (lowerASCII ch).

Definition withDocs (coll : Collection) (l : list BookStore) : Collection :=
  {| docs := l; reachable := reachable coll; foldBeyond := foldBeyond coll |}.

(** [coll.Find] followed by [cursor.All]. *)
Definition Find (coll : Collection) (f : filter) : result (list BookStore) :=
  if reachable coll then Ok (List.filter (matches f) (docs coll)) else Err errDriver.

(** [coll.Aggregate] followed by [cursor.All]. *)
Definition Aggregate (coll : Collection) (pipeline : list stage) : result (list BookStore) :=
  if reachable coll
  then Ok (fold_left (fun l st => runStage st l) pipeline (docs coll))
  else Err errDriver.

(** [coll.FindOne(...).Decode]: the first matching document. *)
Definition FindOne (coll : Collection) (f : filter) : result BookStore :=
  if reachable coll then
    match List.find (matches f) (docs coll) with
    | Some b => Ok b
    | None => Err errNoDocuments
    end
  else Err errDriver.

Definition InsertOne (coll : Collection) (b : BookStore) : result Collection :=
  if reachable coll then Ok (withDocs coll (docs coll ++ [b])) else Err errDriver.

(** The first document that satisfies [p] is replaced by its image
    under [u]; the count is 1 when there was one, 0 otherwise. *)
Fixpoint updateFirst (p : BookStore -> bool) (u : BookStore -> BookStore)
    (l : list BookStore) : Z * list BookStore :=
  match l with
  | [] => (0, [])
  | b :: r =>
      if p b then (1, u b :: r)
      else let '(n, r') := updateFirst p u r in (n, b :: r')
  end.

Fixpoint deleteFirst (p : BookStore -> bool) (l : list BookStore) : Z * list BookStore :=
  match l with
  | [] => (0, [])
  | b :: r =>
      if p b then (1, r)
      else let '(n, r') := deleteFirst p r in (n, b :: r')
  end.

(** [coll.UpdateOne(filter, {"$set": upd})]: [MatchedCount] and the
    collection afterwards. *)
Definition UpdateOne (coll : Collection) (f : filter) (upd : list (string * bsonValue))
    : result (Z * Collection) :=
  if reachable coll then
    let '(n, l) := updateFirst (matches f) (applySet upd) (docs coll) in
    Ok (n, withDocs coll l)
  else Err errDriver.

(** [coll.DeleteOne(filter)]: [DeletedCount] and the collection
    afterwards. *)
Definition DeleteOne (coll : Collection) (f : filter) : result (Z * Collection) :=
  if reachable coll then
    let '(n, l) := deleteFirst (matches f) (docs coll) in
    Ok (n, withDocs coll l)
  else Err errDriver.

End Mongo.

Import Mongo.

(* ================================================================== *)
(** ** Identifier allocator                                            *)
(* ================================================================== *)

(** [var idCounter int64 = 1000000]: the value at process start. *)
Definition idCounter0 : Z := 1000000.

(** [getNextID]: returns the identifier and the new value of
    [idCounter]. *)
Definition getNextID (coll : Collection) (idCounter : Z) : string * Z :=
  let pipeline :=
    [ Match [("id"%string, Exists true)];
      SortDesc "id";
      Limit 1 ] in
  let idCounter :=
    match Aggregate coll pipeline with
    | Ok (r0 :: _) =>
        match ParseInt (ID r0) with
        | Some existingID => wrap64 (existingID + 1)
        | None => idCounter
        end
    | Ok [] => idCounter
    | Err _ => idCounter
    end in
  let id := FormatInt idCounter in
  (id, wrap64 (idCounter + 1)).

(* ================================================================== *)
(** ** Record repository                                               *)
(* ================================================================== *)

Definition bookMapAll (res : BookStore) : gmap string value :=
  <["ID"%string := VString (ID res)]>
  (<["BookName"%string := VString (BookName res)]>
  (<["BookAuthor"%string := VString (BookAuthor res)]>
  (<["BookISBN"%string := VString (BookISBN res)]>
  (<["BookPages"%string := VInt (BookPages res)]> ∅)))).

(** [findAllBooks]: [None] is the panic of [cursor.All] on the nil
    cursor that a failed [Find] leaves. *)
Definition findAllBooks (coll : Collection) : option (list (gmap string value)) :=
  match Find coll emptyFilter with
  | Err _ => None
  | Ok results => Some (List.map bookMapAll results)
  end.

Definition getBookByID (coll : Collection) (id : string) : result (gmap string value) :=
  match FindOne coll (M [("id"%string, Eq (BString id))]) with
  | Err e => Err e
  | Ok book =>
      Ok (<["ID"%string := VString (ID book)]>
         (<["BookName"%string := VString (BookName book)]>
         (<["BookAuthor"%string := VString (BookAuthor book)]>
         (<["BookISBN"%string := VString (BookISBN book)]>
         (<["BookPages"%string := VInt (BookPages book)]>
         (<["BookYear"%string := VInt (BookYear book)]> ∅))))))
  end.

Definition bookExists (coll : Collection) (book : BookStore) : bool :=
  let filter := M
    [ ("bookname"%string, Eq (BString (BookName book)));
      ("bookauthor"%string, Eq (BString (BookAuthor book)));
      ("bookyear"%string, Eq (BInt (BookYear book)));
      ("bookpages"%string, Eq (BInt (BookPages book)));
      ("bookisbn"%string, Eq (BString (BookISBN book))) ] in
  match FindOne coll filter with
  | Ok _ => true
  | Err _ => false
  end.

(** The block that [createBook] and [updateBook] both run on [Pages] and
    on [Year]: 0 for the empty string and for a scan that fails. *)
Definition scanOrZero (s : string) : Z :=
  if String.eqb s EmptyString then 0
  else
    match Sscanf_d s with
    | Some v => v
    | None => 0
    end.

(** The record [createBook] builds from the request once the identifier
    is known. *)
Definition newBook (bookReq : BookRequest) (bookID : string) : BookStore :=
  {| ID := bookID;
     BookName := Request.Title bookReq;
     BookAuthor := Request.Author bookReq;
     BookISBN := Request.Edition bookReq;
     BookPages := scanOrZero (Request.Pages bookReq);
     BookYear := scanOrZero (Request.Year bookReq) |}.

(** [createBook]: the error ([None] is nil), the collection and
    [idCounter] afterwards. *)
Definition createBook (coll : Collection) (idCounter : Z) (bookReq : BookRequest)
    : option error * Collection * Z :=
  let '(bookID, idCounter) :=
    if String.eqb (Request.ID bookReq) EmptyString
    then getNextID coll idCounter
    else (Request.ID bookReq, idCounter) in
  let book := newBook bookReq bookID in
  if bookExists coll book then (Some errBookExists, coll, idCounter)
  else
    match InsertOne coll book with
    | Ok coll' => (None, coll', idCounter)
    | Err err => (Some err, coll, idCounter)
    end.

Definition updateBook (coll : Collection) (id : string) (bookReq : BookRequest)
    : option error * Collection :=
  let filter := M [("id"%string, Eq (BString id))] in
  let pages := scanOrZero (Request.Pages bookReq) in
  let year := scanOrZero (Request.Year bookReq) in
  let update :=
    [ ("bookname"%string, BString (Request.Title bookReq));
      ("bookauthor"%string, BString (Request.Author bookReq));
      ("bookisbn"%string, BString (Request.Edition bookReq));
      ("bookpages"%string, BInt pages);
      ("bookyear"%string, BInt year) ] in
  match UpdateOne coll filter update with
  | Err err => (Some err, coll)
  | Ok (MatchedCount, coll') =>
      if MatchedCount =? 0 then (Some errBookNotFound, coll')
      else (None, coll')
  end.

Definition deleteBook (coll : Collection) (id : string) : option error * Collection :=
  let filter := M [("id"%string, Eq (BString id))] in
  match DeleteOne coll filter with
  | Err err => (Some err, coll)
  | Ok (DeletedCount, coll') =>
      if DeletedCount =? 0 then (Some errBookNotFound, coll')
      else (None, coll')
  end.

(* ================================================================== *)
(** ** Query and aggregation layer                                     *)
(* ================================================================== *)

(** The loop of [getAuthors] over the documents: [authorBooks] after the
    scan.  Reading a key that is absent from a Go map gives the nil
    slice. *)
Definition authorStep (authorBooks : gmap string (list string)) (res : BookStore)
    : gmap string (list string) :=
  if String.eqb (BookISBN res) EmptyString || String.eqb (BookName res) EmptyString
  then authorBooks
  else
    <[BookAuthor res := default [] (authorBooks !! BookAuthor res) ++ [BookName res]]>
      authorBooks.

Definition authorBooksOf (results : list BookStore) : gmap string (list string) :=
  fold_left authorStep results ∅.

Definition authorMap (entry : string * list string) : gmap string value :=
  <["BookName"%string := VStrings (snd entry)]>
  (<["BookAuthor"%string := VString (fst entry)]> ∅).

(** [getAuthors]: one map per author; [None] is the panic on a failed
    [Find].  Go ranges over [authorBooks] in an order it does not fix;
    [map_to_list] stands for one such order, and nothing below depends
    on which. *)
Definition getAuthors (coll : Collection) : option (list (gmap string value)) :=
  match Find coll emptyFilter with
  | Err _ => None
  | Ok results => Some (List.map authorMap (map_to_list (authorBooksOf results)))
  end.

(* ================================================================== *)
(** ** HTTP handlers                                                   *)
(* ================================================================== *)

Inductive body :=
| Empty                                             (* c.NoContent *)
| Text (s : string)                                 (* c.String *)
| JSON (m : gmap string string)                     (* c.JSON of a map[string]string *)
| Render (name : string) (data : list (gmap string value)).  (* c.Render *)

Record response := { status : Z; payload : body }.

Definition StatusOK : Z := 200.
Definition StatusNoContent : Z := 204.
Definition StatusBadRequest : Z := 400.
Definition StatusInternalServerError : Z := 500.

Definition searchRow (res : BookStore) : gmap string value :=
  <["id"%string := VString (ID res)]>
  (<["title"%string := VString (BookName res)]>
  (<["author"%string := VString (BookAuthor res)]>
  (<["isbn"%string := VString (BookISBN res)]>
  (<["pages"%string := VInt (BookPages res)]>
  (<["year"%string := VInt (BookYear res)]> ∅))))).

Definition searchFilter (re : regex) : filter :=
  Or [ [("bookname"%string, RegexI re)];
       [("bookauthor"%string, RegexI re)];
       [("bookisbn"%string, RegexI re)];
       [("bookedition"%string, RegexI re)] ].

(** [GET /api/search?q=query].  [None]: the query is a pattern outside
    the modelled fragment of the store's regular expressions.  A store
    that does not answer fails [coll.Find] already, so the branch after
    a failed [cursor.All] ("Cursor error: ...") has no counterpart
    here. *)
Definition searchHandler (coll : Collection) (query : string) : option response :=
  if String.eqb query EmptyString
  then Some {| status := StatusBadRequest; payload := Text "Missing search query" |}
  else
    match regexCompile (caseFold coll) query with
    | None => None
    | Some re =>
        match Find coll (searchFilter re) with
        | Err err =>
            Some {| status := StatusInternalServerError;
                    payload := Text (String.append "Search error: " (Error err)) |}
        | Ok results =>
            Some {| status := StatusOK;
                    payload := Render "book-table" (List.map searchRow results) |}
        end
    end.

(** [DELETE /api/books/:id]: the response and the collection
    afterwards. *)
Definition deleteHandler (coll : Collection) (id : string) : response * Collection :=
  match deleteBook coll id with
  | (Some err, coll') =>
      if String.eqb (Error err) "book not found"
      then ({| status := StatusNoContent; payload := Empty |}, coll')
      else ({| status := StatusOK;
               payload := JSON {[ "error"%string := "Failed to delete book"%string ]} |}, coll')
  | (None, coll') =>
      ({| status := StatusOK;
          payload := JSON {[ "message"%string := "Book deleted successfully"%string ]} |}, coll')
  end.

(* ================================================================== *)
(** ** Vocabulary of the specification                                 *)
(* ================================================================== *)

(** The filter [bson.M{"id": id}] of the by-ID operations. *)
Definition idFilter (id : string) : filter := M [("id"%string, Eq (BString id))].

(** The identifiers held by the store, in natural order. *)
Definition ids (coll : Collection) : list string := List.map ID (docs coll).

(** Two records agree on the five comparable fields. *)
Definition sameFields (a b : BookStore) : Prop :=
  BookName a = BookName b /\ BookAuthor a = BookAuthor b /\
  BookYear a = BookYear b /\ BookPages a = BookPages b /\
  BookISBN a = BookISBN b.

(** The identifier [createBook] writes: the one of the request, or the
    allocator's when the request has none. *)
Definition writtenID (coll : Collection) (idCounter : Z) (bookReq : BookRequest) : string :=
  if String.eqb (Request.ID bookReq) EmptyString
  then fst (getNextID coll idCounter)
  else Request.ID bookReq.

(** The counter [createBook] leaves behind. *)
Definition counterAfter (coll : Collection) (idCounter : Z) (bookReq : BookRequest) : Z :=
  if String.eqb (Request.ID bookReq) EmptyString
  then snd (getNextID coll idCounter)
  else idCounter.

(** The two numeric fields of a request. *)
Inductive numField := FPages | FYear.

Definition rawOf (f : numField) (bookReq : BookRequest) : string :=
  match f with
  | FPages => Request.Pages bookReq
  | FYear => Request.Year bookReq
  end.

Definition storedOf (f : numField) (b : BookStore) : Z :=
  match f with
  | FPages => BookPages b
  | FYear => BookYear b
  end.

Definition withRaw (f : numField) (s : string) (bookReq : BookRequest) : BookRequest :=
  match f with
  | FPages =>
      {| Request.ID := Request.ID bookReq; Request.Title := Request.Title bookReq;
         Request.Author := Request.Author bookReq; Request.Pages := s;
         Request.Edition := Request.Edition bookReq; Request.Year := Request.Year bookReq |}
  | FYear =>
      {| Request.ID := Request.ID bookReq; Request.Title := Request.Title bookReq;
         Request.Author := Request.Author bookReq; Request.Pages := Request.Pages bookReq;
         Request.Edition := Request.Edition bookReq; Request.Year := s |}
  end.

(** ASCII folding of the bytes of a text. *)
Definition foldCase (s : string) : list ascii :=
  List.map toLower (list_ascii_of_string s).

(** Case-insensitive substring, as the specification words it: [q]
    occurs in [s] when the characters of [q] are found, one after the
    other and up to case folding, among the characters of [s]. *)
Definition foldText (fold : string -> string) (s : string) : list string :=
  List.map fold (chars s).



(** A query without any metacharacter of the store's regular
    expressions. *)
Definition literalQuery (q : string) : bool :=
  forallb (fun c => negb (isMeta c)) (list_ascii_of_string q).

(** Decision procedure for [occursUpTo]. *)
Fixpoint prefixb (q s : list string) : bool :=
  match q, s with
  | [], _ => true
  | a :: q', b :: s' => String.eqb a b && prefixb q' s'
  | _ :: _, [] => false
  end.

Fixpoint sublistb (q s : list string) : bool :=
  prefixb q s
  || match s with
     | _ :: r => sublistb q r
     | [] => false
     end.

Definition occursUpTob (fold : string -> string) (q s : string) : bool :=
  sublistb (foldText fold q) (foldText fold s).


(** The records [getAuthors] keeps, and the titles it files under an
    author, in scan order. *)
Definition qualifies (res : BookStore) : bool :=
  negb (String.eqb (BookISBN res) EmptyString) && negb (String.eqb (BookName res) EmptyString).

Definition bucket (author : string) (results : list BookStore) : list string :=
  List.map BookName
    (List.filter (fun res => qualifies res && String.eqb (BookAuthor res) author) results).

(** The five comparable fields of a record. *)
Definition tuple5 (b : BookStore) : string * string * Z * Z * string :=
  (BookName b, BookAuthor b, BookYear b, BookPages b, BookISBN b).

(** The five comparable fields a request stands for. *)
Definition reqTuple (bookReq : BookRequest) : string * string * Z * Z * string :=
  tuple5 (newBook bookReq EmptyString).

(** What [getAuthors] reads of a record. *)
Definition key3 (res : BookStore) : string * string * string :=
  (BookAuthor res, BookName res, BookISBN res).

(** Create requests run one after the other: the errors, the collection
    and the counter at the end. *)
Fixpoint createAll (coll : Collection) (idCounter : Z) (reqs : list BookRequest)
    : list (option error) * Collection * Z :=
  match reqs with
  | [] => ([], coll, idCounter)
  | bookReq :: rest =>
      let '(err, coll', idCounter') := createBook coll idCounter bookReq in
      let '(errs, coll'', idCounter'') := createAll coll' idCounter' rest in
      (err :: errs, coll'', idCounter'')
  end.

(* ================================================================== *)
(** ** The rest of cmd/main.go                                         *)
(* ================================================================== *)

(** The loop of [getYears]: as [getAuthors], keyed by [strconv.Itoa] of
    the year. *)
Definition yearStep (yearBooks : gmap string (list string)) (res : BookStore)
    : gmap string (list string) :=
  if String.eqb (BookISBN res) EmptyString || String.eqb (BookName res) EmptyString
  then yearBooks
  else
    let year := FormatInt (BookYear res) in
    <[year := default [] (yearBooks !! year) ++ [BookName res]]> yearBooks.

Definition yearBooksOf (results : list BookStore) : gmap string (list string) :=
  fold_left yearStep results ∅.

Definition yearMap (entry : string * list string) : gmap string value :=
  <["BookYear"%string := VString (fst entry)]>
  (<["BookName"%string := VStrings (snd entry)]> ∅).

(** [getYears]; [None] is the panic on a failed [Find], and the order of
    the rows is as unspecified as in [getAuthors]. *)
Definition getYears (coll : Collection) : option (list (gmap string value)) :=
  match Find coll emptyFilter with
  | Err _ => None
  | Ok results => Some (List.map yearMap (map_to_list (yearBooksOf results)))
  end.

(** The slice [startData] of [prepareData]: the three identifiers are
    drawn one after the other, before anything is inserted. *)
Definition startData (coll : Collection) (idCounter : Z) : list BookStore * Z :=
  let '(id1, c1) := getNextID coll idCounter in
  let '(id2, c2) := getNextID coll c1 in
  let '(id3, c3) := getNextID coll c2 in
  ([ {| ID := id1; BookName := "The Vortex"; BookAuthor := "José Eustasio Rivera";
        BookISBN := "958-30-0804-4"; BookPages := 292; BookYear := 1924 |};
     {| ID := id2; BookName := "Frankenstein"; BookAuthor := "Mary Shelley";
        BookISBN := "978-3-649-64609-9"; BookPages := 280; BookYear := 1818 |};
     {| ID := id3; BookName := "The Black Cat"; BookAuthor := "Edgar Allan Poe";
        BookISBN := "978-3-99168-238-7"; BookPages := 280; BookYear := 1843 |} ],
   c3).

(** A [BookStore] passed as a filter: the document the codec writes for
    it, so all six fields have to be equal. *)
Definition structFilter (book : BookStore) : filter :=
  M [ ("id"%string, Eq (BString (ID book)));
      ("bookname"%string, Eq (BString (BookName book)));
      ("bookauthor"%string, Eq (BString (BookAuthor book)));
      ("bookisbn"%string, Eq (BString (BookISBN book)));
      ("bookpages"%string, Eq (BInt (BookPages book)));
      ("bookyear"%string, Eq (BInt (BookYear book))) ].

(** How [prepareData] ends: a panic, [log.Fatal], or a return. *)
Inductive startup :=
| Panicked
| Exited
| Ready (coll : Collection).

(** The [for _, book := range startData] loop of [prepareData]. *)
Fixpoint seedLoop (coll : Collection) (books : list BookStore) : startup :=
  match books with
  | [] => Ready coll
  | book :: rest =>
      match Find coll (structFilter book) with
      | Err _ => Panicked
      | Ok results =>
          if (1 <? List.length results)%nat then Exited
          else if (List.length results =? 0)%nat then
            match InsertOne coll book with
            | Ok coll' => seedLoop coll' rest
            | Err _ => Panicked
            end
          else seedLoop coll rest
      end
  end.

Definition prepareData (coll : Collection) (idCounter : Z) : startup * Z :=
  let '(books, idCounter) := startData coll idCounter in
  (seedLoop coll books, idCounter).

Definition StatusCreated : Z := 201.
Definition StatusNotFound : Z := 404.
Definition StatusConflict : Z := 409.

(** Bodies of the JSON endpoints that answer with books. *)
Inductive jsonBody :=
| JMessage (m : gmap string string)            (* map[string]string *)
| JBook (m : gmap string value)                (* map[string]interface{} *)
| JBooks (l : list (gmap string value)).       (* []map[string]interface{} *)

Record apiResponse := { code : Z; json : jsonBody }.

(** [GET /books], [GET /authors], [GET /years]: the page rendered from
    the repository's answer; [None] is the panic of the repository
    function. *)
Definition booksPage (coll : Collection) : option response :=
  match findAllBooks coll with
  | None => None
  | Some books => Some {| status := StatusOK; payload := Render "book-table" books |}
  end.

Definition authorsPage (coll : Collection) : option response :=
  match getAuthors coll with
  | None => None
  | Some authors => Some {| status := 200; payload := Render "author-table" authors |}
  end.

Definition yearsPage (coll : Collection) : option response :=
  match getYears coll with
  | None => None
  | Some years => Some {| status := 200; payload := Render "year-table" years |}
  end.

(** [GET /api/books]. *)
Definition listHandler (coll : Collection) : option apiResponse :=
  match findAllBooks coll with
  | None => None
  | Some books => Some {| code := StatusOK; json := JBooks books |}
  end.

(** [GET /api/books/:id]. *)
Definition getBookHandler (coll : Collection) (id : string) : apiResponse :=
  match getBookByID coll id with
  | Err _ =>
      {| code := StatusNotFound;
         json := JMessage {[ "error"%string := "Book not found"%string ]} |}
  | Ok book => {| code := StatusOK; json := JBook book |}
  end.

(** [POST /api/books].  [bound] is what [c.Bind] made of the request:
    [None] when it returned an error. *)
Definition createHandler (coll : Collection) (idCounter : Z) (bound : option BookRequest)
    : response * Collection * Z :=
  match bound with
  | None =>
      ({| status := StatusBadRequest;
          payload := JSON {[ "error"%string := "Invalid request body"%string ]} |},
       coll, idCounter)
  | Some bookReq =>
      if String.eqb (Request.Title bookReq) EmptyString
         || String.eqb (Request.Author bookReq) EmptyString
      then
        ({| status := StatusBadRequest;
            payload := JSON {[ "error"%string := "Title and author are required"%string ]} |},
         coll, idCounter)
      else
        match createBook coll idCounter bookReq with
        | (Some err, coll', idCounter') =>
            if String.eqb (Error err) "book already exists"
            then
              ({| status := StatusConflict;
                  payload := JSON {[ "error"%string := "Book already exists"%string ]} |},
               coll', idCounter')
            else
              ({| status := StatusInternalServerError;
                  payload := JSON {[ "error"%string := "Failed to create book"%string ]} |},
               coll', idCounter')
        | (None, coll', idCounter') =>
            ({| status := StatusCreated;
                payload := JSON {[ "message"%string := "Book created successfully"%string ]} |},
             coll', idCounter')
        end
  end.

(** [PUT /api/books/:id]. *)
Definition updateHandler (coll : Collection) (id : string) (bound : option BookRequest)
    : response * Collection :=
  match bound with
  | None =>
      ({| status := StatusBadRequest;
          payload := JSON {[ "error"%string := "Invalid request body"%string ]} |}, coll)
  | Some bookReq =>
      if String.eqb (Request.Title bookReq) EmptyString
         || String.eqb (Request.Author bookReq) EmptyString
      then
        ({| status := StatusBadRequest;
            payload := JSON {[ "error"%string := "Title and author are required"%string ]} |},
         coll)
      else
        match updateBook coll id bookReq with
        | (Some err, coll') =>
            if String.eqb (Error err) "book not found"
            then
              ({| status := StatusNotFound;
                  payload := JSON {[ "error"%string := "Book not found"%string ]} |}, coll')
            else
              ({| status := StatusInternalServerError;
                  payload := JSON {[ "error"%string := "Failed to update book"%string ]} |},
               coll')
        | (None, coll') =>
            ({| status := StatusOK;
                payload := JSON {[ "message"%string := "Book updated successfully"%string ]} |},
             coll')
        end
  end.

(** *** Further vocabulary *)

(** The map [getBookByID] returns for a record. *)
Definition bookMapByID (book : BookStore) : gmap string value :=
  <["ID"%string := VString (ID book)]>
  (<["BookName"%string := VString (BookName book)]>
  (<["BookAuthor"%string := VString (BookAuthor book)]>
  (<["BookISBN"%string := VString (BookISBN book)]>
  (<["BookPages"%string := VInt (BookPages book)]>
  (<["BookYear"%string := VInt (BookYear book)]> ∅))))).

(** [n] calls of the allocator in a row on the same collection. *)
Fixpoint allocate (coll : Collection) (idCounter : Z) (n : nat) : list string * Z :=
  match n with
  | O => ([], idCounter)
  | S n' =>
      let '(id, c) := getNextID coll idCounter in
      let '(rest, c') := allocate coll c n' in
      (id :: rest, c')
  end.

(** A string of exactly [n] decimal digits. *)
Definition digitString (n : nat) (s : string) : bool :=
  Nat.eqb (String.length s) n && forallb isDigit (list_ascii_of_string s).

(** The titles [getYears] files under a year (in its decimal
    rendering), in scan order. *)
Definition yearBucket (year : string) (results : list BookStore) : list string :=
  List.map BookName
    (List.filter
       (fun res => qualifies res && String.eqb (FormatInt (BookYear res)) year) results).

(** Does the string begin with a decimal digit? *)
Definition startsWithDigit (s : string) : bool :=
  match s with
  | String c _ => isDigit c
  | EmptyString => false
  end.

(* ================================================================== *)
(** ** Sample data                                                     *)
(* ================================================================== *)

Definition book (id title author isbn : string) (pages year : Z) : BookStore :=
  {| ID := id; BookName := title; BookAuthor := author; BookISBN := isbn;
     BookPages := pages; BookYear := year |}.

Definition request (id title author pages edition year : string) : BookRequest :=
  {| Request.ID := id; Request.Title := title; Request.Author := author;
     Request.Pages := pages; Request.Edition := edition; Request.Year := year |}.

(** For the sample stores, an engine that folds ASCII letters and
    nothing else; on texts without other letters every engine agrees
    with it. *)
Definition asciiOnly (ch : string) : string := ch.

(** Two of the records [prepareData] seeds the collection with. *)
Definition frankenstein : BookStore :=
  book "1000001" "Frankenstein" "Mary Shelley" "978-3-649-64609-9" 280 1818.

Definition blackCat : BookStore :=
  book "1000002" "The Black Cat" "Edgar Allan Poe" "978-3-99168-238-7" 280 1843.

Definition seeded : Collection :=
  {| docs := [frankenstein; blackCat]; reachable := true; foldBeyond := asciiOnly |}.

Definition emptyStore : Collection :=
  {| docs := []; reachable := true; foldBeyond := asciiOnly |}.




(** The create requests that stand for the two seeded records. *)
Definition seedRequests : list BookRequest :=
  [ request EmptyString "Frankenstein" "Mary Shelley" "280" "978-3-649-64609-9" "1818";
    request EmptyString "The Black Cat" "Edgar Allan Poe" "280" "978-3-99168-238-7" "1843" ].

(** Two records that were created with the same identifier. *)
Definition twins : Collection :=
  {| docs := [book "1" "T1" "A" "e" 1 2000; book "1" "T2" "A" "e" 1 2000];
     reachable := true; foldBeyond := asciiOnly |}.

(** Records whose identifiers have different lengths. *)
Definition nineTen : Collection :=
  {| docs := [book "9" "T1" "A" "e" 1 2000; book "10" "T2" "A" "e" 1 2000];
     reachable := true; foldBeyond := asciiOnly |}.

(* ================================================================== *)
(** ** Runtime functions on concrete inputs                            *)
(* ================================================================== *)

Example ParseInt_plain : ParseInt "1000002" = Some 1000002.
Proof. reflexivity. Qed.

Example ParseInt_trailing : ParseInt "12abc" = None.
Proof. reflexivity. Qed.

Example ParseInt_above_max : ParseInt "9223372036854775808" = None.
Proof. reflexivity. Qed.

Example ParseInt_min : ParseInt "-9223372036854775808" = Some minInt64.
Proof. reflexivity. Qed.

Example Sscanf_d_plain : Sscanf_d "292" = Some 292.
Proof. reflexivity. Qed.

Example Sscanf_d_prefix : Sscanf_d "  12abc" = Some 12.
Proof. reflexivity. Qed.

Example Sscanf_d_word : Sscanf_d "abc" = None.
Proof. reflexivity. Qed.

Example Sscanf_d_sign_only : Sscanf_d "-" = None.
Proof. reflexivity. Qed.

Example Sscanf_d_newline : Sscanf_d (String (ascii_of_N 10) "7") = None.
Proof. reflexivity. Qed.

Example FormatInt_seed : FormatInt idCounter0 = "1000000"%string.
Proof. reflexivity. Qed.

(* ================================================================== *)
(** ** Decimal strings: printing, parsing and scanning                 *)
(* ================================================================== *)

Lemma parseDigits_step c acc r :
  isDigit c = true ->
  parseDigits acc (String c r) = parseDigits (10 * acc + digitVal c) r.
Proof. intros H. simpl. now rewrite H. Qed.

Lemma parseDigits_uint_acc d :
  forall acc : positive,
    parseDigits (Z.pos acc) (NilEmpty.string_of_uint d)
    = Some (Z.pos (Pos.of_uint_acc d acc)).
Proof.
  induction d; intros acc; cbn [NilEmpty.string_of_uint Pos.of_uint_acc];
    [reflexivity|..];
    (rewrite parseDigits_step by reflexivity;
     match goal with
     | |- parseDigits ?z _ = _ =>
         match goal with
         | |- context [Pos.of_uint_acc d ?q] =>
             replace z with (Z.pos q) by (unfold digitVal; cbn; lia)
         end
     end; apply IHd).
Qed.

Lemma parseDigits_uint d :
  parseDigits 0 (NilEmpty.string_of_uint d) = Some (Z.of_N (Pos.of_uint d)).
Proof.
  induction d; cbn [NilEmpty.string_of_uint Pos.of_uint];
    [reflexivity|exact IHd|..];
    (rewrite parseDigits_step by reflexivity;
     match goal with
     | |- parseDigits ?z _ = Some (Z.of_N (N.pos (Pos.of_uint_acc d ?q))) =>
         replace z with (Z.pos q) by (unfold digitVal; cbn; lia)
     end; apply parseDigits_uint_acc).
Qed.

Lemma string_of_uint_head d :
  d <> Decimal.Nil ->
  exists c r, NilEmpty.string_of_uint d = String c r /\ isDigit c = true.
Proof.
  destruct d; intros Hd; [now contradiction Hd|..];
    cbn [NilEmpty.string_of_uint]; eexists _, _; split; reflexivity.
Qed.

Lemma isDigit_not_sign c :
  isDigit c = true -> Ascii.eqb c "+" = false /\ Ascii.eqb c "-" = false.
Proof.
  intros Hd. split.
  - destruct (Ascii.eqb c "+") eqn:E; [|reflexivity].
    apply Ascii.eqb_eq in E. subst c. discriminate Hd.
  - destruct (Ascii.eqb c "-") eqn:E; [|reflexivity].
    apply Ascii.eqb_eq in E. subst c. discriminate Hd.
Qed.

Lemma parseUint_to_uint p :
  parseUint (NilEmpty.string_of_uint (Pos.to_uint p)) = Some (Z.pos p).
Proof.
  destruct (string_of_uint_head (Pos.to_uint p) (Unsigned.to_uint_nonnil p))
    as (c & r & Hs & _).
  unfold parseUint. rewrite Hs, <- Hs, parseDigits_uint, Unsigned.of_to. reflexivity.
Qed.

Lemma ParseInt_minus r :
  ParseInt (String "-" r)
  = match parseUint r with
    | None => None
    | Some un => if 2 ^ 63 <? un then None else Some (- un)
    end.
Proof. reflexivity. Qed.

Lemma ParseInt_FormatInt z :
  - 2 ^ 63 <= z < 2 ^ 63 -> ParseInt (FormatInt z) = Some z.
Proof.
  intros Hz. unfold FormatInt. destruct z as [|p|p]; [reflexivity|..];
    cbn [Z.to_int NilEmpty.string_of_int].
  - destruct (string_of_uint_head (Pos.to_uint p) (Unsigned.to_uint_nonnil p))
      as (c & r & Hs & Hc).
    destruct (isDigit_not_sign c Hc) as [Hplus Hminus].
    pose proof (parseUint_to_uint p) as Hp. rewrite Hs in *.
    unfold ParseInt. rewrite Hplus, Hminus, Hp. cbn [negb andb].
    destruct (2 ^ 63 <=? Z.pos p) eqn:E; [apply Z.leb_le in E; lia|reflexivity].
  - rewrite ParseInt_minus, parseUint_to_uint.
    destruct (2 ^ 63 <? Z.pos p) eqn:E; [apply Z.ltb_lt in E; lia|reflexivity].
Qed.

Lemma FormatInt_inj z z' : FormatInt z = FormatInt z' -> z = z'.
Proof.
  unfold FormatInt. intros H.
  assert (NilEmpty.int_of_string (NilEmpty.string_of_int (Z.to_int z))
          = NilEmpty.int_of_string (NilEmpty.string_of_int (Z.to_int z'))) as H'
      by now rewrite H.
  rewrite !NilEmpty.isi in H'. 
  apply DecimalZ.to_int_inj. congruence.
Qed.

Lemma spanDigits_uint d rest :
  startsWithDigit rest = false ->
  spanDigits (String.append (NilEmpty.string_of_uint d) rest)
  = (NilEmpty.string_of_uint d, rest).
Proof.
  intros Hrest. induction d; [|simpl in *; now rewrite IHd..].
  destruct rest as [|c r]; [reflexivity|]. simpl in *. now rewrite Hrest.
Qed.

Lemma SkipSpace_token c r fuel :
  isDigit c = true \/ c = "-"%char ->
  SkipSpace (S fuel) (String c r) = Some (String c r).
Proof.
  intros Hc.
  assert (byte c = 45 \/ 48 <= byte c <= 57)%N as Hb.
  { destruct Hc as [Hd| ->]; [right|left; reflexivity].
    unfold isDigit in Hd. apply andb_true_iff in Hd as [H1 H2].
    apply N.leb_le in H1, H2. lia. }
  assert (forall k, (k < 45 \/ 57 < k)%N -> (byte c =? k)%N = false) as Hne
      by (intros k Hk; apply N.eqb_neq; lia).
  cbn [SkipSpace]. rewrite (Hne 10%N) by lia.
  assert (spaceWidth (String c r) = 0%nat) as ->; [|reflexivity].
  unfold spaceWidth.
  assert ((9 <=? byte c)%N && (byte c <=? 13)%N = false) as ->.
  { apply andb_false_iff. right. apply N.leb_gt. lia. }
  rewrite !Hne by lia. cbn [orb andb].
  destruct r as [|b [|c' r']]; reflexivity.
Qed.

Lemma append_cons c r rest :
  String.append (String c r) rest = String c (String.append r rest).
Proof. reflexivity. Qed.

Lemma Sscanf_d_FormatInt z rest :
  - 2 ^ 63 <= z < 2 ^ 63 -> startsWithDigit rest = false ->
  Sscanf_d (String.append (FormatInt z) rest) = Some z.
Proof.
  intros Hz Hrest. pose proof (ParseInt_FormatInt z Hz) as Hp.
  unfold FormatInt in *. destruct z as [|p|p]; cbn [Z.to_int NilEmpty.string_of_int] in *.
  - pose proof (spanDigits_uint Decimal.zero rest Hrest) as Hspan.
    change (NilEmpty.string_of_uint Decimal.zero) with "0"%string in *.
    unfold Sscanf_d. rewrite append_cons in *. cbn [String.length].
    rewrite SkipSpace_token by (left; reflexivity).
    change (Ascii.eqb "0" "+" || Ascii.eqb "0" "-") with false. cbv iota.
    rewrite Hspan. exact Hp.
  - destruct (string_of_uint_head (Pos.to_uint p) (Unsigned.to_uint_nonnil p))
      as (c & r & Hs & Hc).
    destruct (isDigit_not_sign c Hc) as [Hplus Hminus].
    unfold Sscanf_d.
    pose proof (spanDigits_uint (Pos.to_uint p) rest Hrest) as Hspan.
    rewrite Hs in *. rewrite append_cons in *. cbn [String.length].
    rewrite SkipSpace_token by (now left).
    rewrite Hplus, Hminus. cbn [orb]. rewrite Hspan. exact Hp.
  - destruct (string_of_uint_head (Pos.to_uint p) (Unsigned.to_uint_nonnil p))
      as (c & r & Hs & Hc).
    unfold Sscanf_d.
    pose proof (spanDigits_uint (Pos.to_uint p) rest Hrest) as Hspan.
    rewrite append_cons. cbn [String.length].
    rewrite SkipSpace_token by (now right).
    change (Ascii.eqb "-" "+" || Ascii.eqb "-" "-") with true. cbv iota.
    rewrite Hspan. rewrite Hs in *. exact Hp.
Qed.

Lemma wrap64_id z : - 2 ^ 63 <= z < 2 ^ 63 -> wrap64 z = z.
Proof. intros Hz. unfold wrap64. rewrite Z.mod_small; lia. Qed.

Lemma isDigit_bounds c : isDigit c = true -> 0 <= digitVal c <= 9.
Proof.
  unfold isDigit, digitVal. intros H. apply andb_true_iff in H as [H1 H2].
  apply N.leb_le in H1, H2. lia.
Qed.

Lemma parseDigits_nonneg s :
  forall acc v, 0 <= acc -> parseDigits acc s = Some v -> 0 <= v.
Proof.
  induction s as [|c r IH]; intros acc v Hacc; simpl.
  - intros [= <-]. exact Hacc.
  - destruct (isDigit c) eqn:Hc; [|discriminate].
    apply IH. pose proof (isDigit_bounds c Hc). lia.
Qed.

Lemma ParseInt_range s v : ParseInt s = Some v -> - 2 ^ 63 <= v < 2 ^ 63.
Proof.
  unfold ParseInt. destruct s as [|c r]; [discriminate|].
  destruct (if Ascii.eqb c "+" then (false, r)
            else if Ascii.eqb c "-" then (true, r) else (false, String c r))
    as [neg digits].
  destruct (parseUint digits) as [un|] eqn:Hu; [|discriminate].
  assert (0 <= un) as Hun.
  { unfold parseUint in Hu. destruct digits; [discriminate|].
    eapply parseDigits_nonneg; [|exact Hu]. lia. }
  destruct neg; cbn [negb andb].
  - destruct (2 ^ 63 <? un) eqn:E; [discriminate|].
    apply Z.ltb_ge in E. intros [= <-]. lia.
  - destruct (2 ^ 63 <=? un) eqn:E; [discriminate|].
    apply Z.leb_gt in E. intros [= <-]. lia.
Qed.

Lemma Sscanf_d_range s v : Sscanf_d s = Some v -> - 2 ^ 63 <= v < 2 ^ 63.
Proof.
  unfold Sscanf_d. destruct (SkipSpace (String.length s) s) as [[|c r]|]; try discriminate.
  destruct (if Ascii.eqb c "+" || Ascii.eqb c "-"
            then (String c EmptyString, r) else (EmptyString, String c r)) as [sgn s2].
  destruct (spanDigits s2) as [[|d ds] rest]; [discriminate|].
  apply ParseInt_range.
Qed.

Lemma scanOrZero_range s : - 2 ^ 63 <= scanOrZero s < 2 ^ 63.
Proof.
  unfold scanOrZero. destruct (String.eqb s EmptyString); [lia|].
  destruct (Sscanf_d s) as [v|] eqn:Hs; [|lia]. now apply Sscanf_d_range in Hs.
Qed.

(** The empty string does not scan, so the two tests of the block are
    one. *)
Lemma scanOrZero_scan s :
  scanOrZero s = match Sscanf_d s with Some v => v | None => 0 end.
Proof.
  unfold scanOrZero. destruct (String.eqb s EmptyString) eqn:E; [|reflexivity].
  apply String.eqb_eq in E. now subst s.
Qed.

Lemma append_empty s : String.append s EmptyString = s.
Proof. induction s as [|c r IH]; [reflexivity|]. rewrite append_cons. now rewrite IH. Qed.

Lemma scanOrZero_FormatInt z :
  - 2 ^ 63 <= z < 2 ^ 63 -> scanOrZero (FormatInt z) = z.
Proof.
  intros Hz. rewrite scanOrZero_scan, <- (append_empty (FormatInt z)).
  now rewrite Sscanf_d_FormatInt.
Qed.

(** A decimal numeral outside the range of [int64] does not parse, and
    the scan hands exactly the numeral to [ParseInt]. *)
Lemma ParseInt_FormatInt_large z :
  ~ (- 2 ^ 63 <= z < 2 ^ 63) -> ParseInt (FormatInt z) = None.
Proof.
  intros Hz. unfold FormatInt. destruct z as [|p|p]; [lia|..];
    cbn [Z.to_int NilEmpty.string_of_int].
  - destruct (string_of_uint_head (Pos.to_uint p) (Unsigned.to_uint_nonnil p))
      as (c & r & Hs & Hc).
    destruct (isDigit_not_sign c Hc) as [Hplus Hminus].
    pose proof (parseUint_to_uint p) as Hp. rewrite Hs in *.
    unfold ParseInt. rewrite Hplus, Hminus, Hp. cbn [negb andb].
    destruct (2 ^ 63 <=? Z.pos p) eqn:E; [reflexivity|apply Z.leb_gt in E; lia].
  - rewrite ParseInt_minus, parseUint_to_uint.
    destruct (2 ^ 63 <? Z.pos p) eqn:E; [reflexivity|apply Z.ltb_ge in E; lia].
Qed.

Lemma Sscanf_d_FormatInt_any z rest :
  startsWithDigit rest = false ->
  Sscanf_d (String.append (FormatInt z) rest) = ParseInt (FormatInt z).
Proof.
  intros Hrest.
  unfold FormatInt in *. destruct z as [|p|p]; cbn [Z.to_int NilEmpty.string_of_int] in *.
  - pose proof (spanDigits_uint Decimal.zero rest Hrest) as Hspan.
    change (NilEmpty.string_of_uint Decimal.zero) with "0"%string in *.
    unfold Sscanf_d. rewrite append_cons in *. cbn [String.length].
    rewrite SkipSpace_token by (left; reflexivity).
    change (Ascii.eqb "0" "+" || Ascii.eqb "0" "-") with false. cbv iota.
    rewrite Hspan. reflexivity.
  - destruct (string_of_uint_head (Pos.to_uint p) (Unsigned.to_uint_nonnil p))
      as (c & r & Hs & Hc).
    destruct (isDigit_not_sign c Hc) as [Hplus Hminus].
    unfold Sscanf_d.
    pose proof (spanDigits_uint (Pos.to_uint p) rest Hrest) as Hspan.
    rewrite Hs in *. rewrite append_cons in *. cbn [String.length].
    rewrite SkipSpace_token by (now left).
    rewrite Hplus, Hminus. cbn [orb]. rewrite Hspan. reflexivity.
  - destruct (string_of_uint_head (Pos.to_uint p) (Unsigned.to_uint_nonnil p))
      as (c & r & Hs & Hc).
    unfold Sscanf_d.
    pose proof (spanDigits_uint (Pos.to_uint p) rest Hrest) as Hspan.
    rewrite append_cons. cbn [String.length].
    rewrite SkipSpace_token by (now right).
    change (Ascii.eqb "-" "+" || Ascii.eqb "-" "-") with true. cbv iota.
    rewrite Hspan. rewrite Hs in *. reflexivity.
Qed.

Lemma scanOrZero_too_large z rest :
  ~ (- 2 ^ 63 <= z < 2 ^ 63) -> startsWithDigit rest = false ->
  scanOrZero (String.append (FormatInt z) rest) = 0.
Proof.
  intros Hz Hrest.
  now rewrite scanOrZero_scan, Sscanf_d_FormatInt_any, ParseInt_FormatInt_large.
Qed.

(* ================================================================== *)
(** ** The store: filters and single-document writes                   *)
(* ================================================================== *)

Lemma withDocs_same coll : withDocs coll (docs coll) = coll.
Proof. destruct coll; reflexivity. Qed.

Lemma matches_id id b :
  matches (M [("id"%string, Eq (BString id))]) b = String.eqb id (ID b).
Proof. cbn. apply andb_true_r. Qed.

Lemma matches_id_true id b :
  matches (M [("id"%string, Eq (BString id))]) b = true <-> ID b = id.
Proof.
  rewrite matches_id, String.eqb_eq. split; congruence.
Qed.

Section FirstMatch.
Variable p : BookStore -> bool.

Lemma updateFirst_none u l :
  (forall b, In b l -> p b = false) -> updateFirst p u l = (0, l).
Proof.
  induction l as [|b r IH]; intros Hno; simpl; [reflexivity|].
  rewrite (Hno b (or_introl eq_refl)).
  rewrite IH; [reflexivity|]. intros x Hx. apply Hno. now right.
Qed.

Lemma updateFirst_some u pre b suf :
  (forall x, In x pre -> p x = false) -> p b = true ->
  updateFirst p u (pre ++ b :: suf) = (1, pre ++ u b :: suf).
Proof.
  induction pre as [|x pre IH]; intros Hno Hb; simpl.
  - now rewrite Hb.
  - rewrite (Hno x (or_introl eq_refl)).
    rewrite IH; [reflexivity| |assumption].
    intros y Hy. apply Hno. now right.
Qed.

Lemma deleteFirst_none l :
  (forall b, In b l -> p b = false) -> deleteFirst p l = (0, l).
Proof.
  induction l as [|b r IH]; intros Hno; simpl; [reflexivity|].
  rewrite (Hno b (or_introl eq_refl)).
  rewrite IH; [reflexivity|]. intros x Hx. apply Hno. now right.
Qed.

Lemma deleteFirst_some pre b suf :
  (forall x, In x pre -> p x = false) -> p b = true ->
  deleteFirst p (pre ++ b :: suf) = (1, pre ++ suf).
Proof.
  induction pre as [|x pre IH]; intros Hno Hb; simpl.
  - now rewrite Hb.
  - rewrite (Hno x (or_introl eq_refl)).
    rewrite IH; [reflexivity| |assumption].
    intros y Hy. apply Hno. now right.
Qed.

(** A list with a match splits at the first one. *)
Lemma first_match_split l :
  (exists b, In b l /\ p b = true) ->
  exists pre b suf,
    l = pre ++ b :: suf /\ p b = true /\ (forall x, In x pre -> p x = false).
Proof.
  induction l as [|a r IH]; intros [b [Hin Hb]]; [destruct Hin|].
  destruct (p a) eqn:Ha.
  - exists [], a, r. repeat split; [assumption|]. intros x [].
  - destruct Hin as [->|Hin]; [congruence|].
    destruct IH as (pre & c & suf & -> & Hc & Hpre); [now exists b|].
    exists (a :: pre), c, suf. repeat split; [assumption|].
    intros x [<-|Hx]; [assumption|now apply Hpre].
Qed.
End FirstMatch.

Lemma idFilter_false_iff id l :
  (forall x, In x l -> matches (idFilter id) x = false) <-> ~ In id (List.map ID l).
Proof.
  split.
  - intros Hno Hin. apply in_map_iff in Hin as (x & Hx & Hin).
    specialize (Hno x Hin). apply matches_id_true in Hx.
    unfold idFilter in Hno. congruence.
  - intros Hnot x Hin. destruct (matches (idFilter id) x) eqn:Hm; [|reflexivity].
    exfalso. apply Hnot. apply in_map_iff. exists x. split; [|assumption].
    now apply matches_id_true.
Qed.

(** A store that holds [id] splits at the first record that carries it. *)
Lemma split_at_id id l :
  In id (List.map ID l) ->
  exists pre b suf, l = pre ++ b :: suf /\ ID b = id /\ ~ In id (List.map ID pre).
Proof.
  intros Hin. apply in_map_iff in Hin as (x & Hx & Hin).
  destruct (first_match_split (matches (idFilter id)) l) as (pre & b & suf & Hl & Hb & Hpre).
  - exists x. split; [assumption|]. now apply matches_id_true.
  - exists pre, b, suf. repeat split; [assumption| |].
    + now apply matches_id_true.
    + now apply idFilter_false_iff.
Qed.

Lemma applySet_update bookReq b :
  applySet
    [ ("bookname"%string, BString (Request.Title bookReq));
      ("bookauthor"%string, BString (Request.Author bookReq));
      ("bookisbn"%string, BString (Request.Edition bookReq));
      ("bookpages"%string, BInt (scanOrZero (Request.Pages bookReq)));
      ("bookyear"%string, BInt (scanOrZero (Request.Year bookReq))) ] b
  = newBook bookReq (ID b).
Proof. reflexivity. Qed.

Lemma updateBook_unreachable coll id bookReq :
  reachable coll = false -> updateBook coll id bookReq = (Some errDriver, coll).
Proof. intros Hr. unfold updateBook, UpdateOne. now rewrite Hr. Qed.

Lemma updateBook_absent coll id bookReq :
  reachable coll = true -> ~ In id (ids coll) ->
  updateBook coll id bookReq = (Some errBookNotFound, coll).
Proof.
  intros Hr Hnot. unfold updateBook, UpdateOne. rewrite Hr.
  rewrite updateFirst_none by (now apply idFilter_false_iff).
  simpl. now rewrite withDocs_same.
Qed.

Lemma updateBook_present coll id bookReq pre b suf :
  reachable coll = true ->
  docs coll = pre ++ b :: suf -> ID b = id -> ~ In id (List.map ID pre) ->
  updateBook coll id bookReq
  = (None, withDocs coll (pre ++ newBook bookReq id :: suf)).
Proof.
  intros Hr Hd Hb Hpre. unfold updateBook, UpdateOne. cbv zeta. rewrite Hr, Hd.
  rewrite (updateFirst_some _ _ pre b suf).
  - rewrite applySet_update, Hb. reflexivity.
  - now apply idFilter_false_iff.
  - now apply matches_id_true.
Qed.

Lemma deleteBook_unreachable coll id :
  reachable coll = false -> deleteBook coll id = (Some errDriver, coll).
Proof. intros Hr. unfold deleteBook, DeleteOne. now rewrite Hr. Qed.

Lemma deleteBook_absent coll id :
  reachable coll = true -> ~ In id (ids coll) ->
  deleteBook coll id = (Some errBookNotFound, coll).
Proof.
  intros Hr Hnot. unfold deleteBook, DeleteOne. rewrite Hr.
  rewrite deleteFirst_none by (now apply idFilter_false_iff).
  simpl. now rewrite withDocs_same.
Qed.

Lemma deleteBook_present coll id pre b suf :
  reachable coll = true ->
  docs coll = pre ++ b :: suf -> ID b = id -> ~ In id (List.map ID pre) ->
  deleteBook coll id = (None, withDocs coll (pre ++ suf)).
Proof.
  intros Hr Hd Hb Hpre. unfold deleteBook, DeleteOne. rewrite Hr, Hd.
  rewrite (deleteFirst_some _ pre b suf).
  - reflexivity.
  - now apply idFilter_false_iff.
  - now apply matches_id_true.
Qed.

Lemma deleteHandler_unreachable coll id :
  reachable coll = false ->
  deleteHandler coll id
  = ({| status := StatusOK;
        payload := JSON {[ "error"%string := "Failed to delete book"%string ]} |}, coll).
Proof.
  intros Hr. unfold deleteHandler. now rewrite deleteBook_unreachable.
Qed.

Lemma deleteHandler_absent coll id :
  reachable coll = true -> ~ In id (ids coll) ->
  deleteHandler coll id = ({| status := StatusNoContent; payload := Empty |}, coll).
Proof.
  intros Hr Hnot. unfold deleteHandler. now rewrite deleteBook_absent.
Qed.

Lemma deleteHandler_present coll id :
  reachable coll = true -> In id (ids coll) ->
  fst (deleteHandler coll id)
  = {| status := StatusOK;
       payload := JSON {[ "message"%string := "Book deleted successfully"%string ]} |}.
Proof.
  intros Hr Hin. destruct (split_at_id id (docs coll) Hin) as (pre & b & suf & Hd & Hb & Hpre).
  unfold deleteHandler. now rewrite (deleteBook_present coll id pre b suf).
Qed.

(* ================================================================== *)
(** ** Update and delete by identifier                                 *)
(* ================================================================== *)

(** C4. On a store that answers, [updateBook] returns "book not found"
    and changes nothing when no record carries [id].  When one does, it
    returns nil, and the store afterwards holds the same records in the
    same places except that the first record with that [id] is replaced
    by the record [stored]: its [ID] is the old one; its title, author
    and ISBN are the title, author and edition of the request; its pages
    and year are what the scan reads from the strings of the request, 0
    when the scan reads nothing.  So an absent (empty) numeric field is
    stored as 0, and the decimal numeral of an [int64] as that
    integer. *)
Theorem updateBook_by_id coll id bookReq :
  reachable coll = true ->
  (~ In id (ids coll) -> updateBook coll id bookReq = (Some errBookNotFound, coll)) /\
  (In id (ids coll) ->
     exists pre b suf stored coll',
       docs coll = pre ++ b :: suf /\ ID b = id /\ ~ In id (List.map ID pre) /\
       updateBook coll id bookReq = (None, coll') /\
       docs coll' = pre ++ stored :: suf /\
       reachable coll' = true /\ foldBeyond coll' = foldBeyond coll /\
       ID stored = ID b /\
       BookName stored = Request.Title bookReq /\
       BookAuthor stored = Request.Author bookReq /\
       BookISBN stored = Request.Edition bookReq /\
       BookPages stored
       = match Sscanf_d (Request.Pages bookReq) with Some v => v | None => 0 end /\
       BookYear stored
       = match Sscanf_d (Request.Year bookReq) with Some v => v | None => 0 end /\
       (Request.Pages bookReq = EmptyString -> BookPages stored = 0) /\
       (Request.Year bookReq = EmptyString -> BookYear stored = 0) /\
       (forall z, minInt64 <= z < 2 ^ 63 ->
          (Request.Pages bookReq = FormatInt z -> BookPages stored = z) /\
          (Request.Year bookReq = FormatInt z -> BookYear stored = z))).
Proof.
  intros Hr. split.
  - now apply updateBook_absent.
  - intros Hin. destruct (split_at_id id (docs coll) Hin) as (pre & b & suf & Hd & Hb & Hpre).
    exists pre, b, suf, (newBook bookReq id),
      (withDocs coll (pre ++ newBook bookReq id :: suf)).
    split; [exact Hd|]. split; [exact Hb|]. split; [exact Hpre|].
    split; [now apply (updateBook_present coll id bookReq pre b suf)|].
    split; [reflexivity|]. split; [exact Hr|]. split; [reflexivity|].
    split; [symmetry; exact Hb|]. do 3 (split; [reflexivity|]).
    split; [apply scanOrZero_scan|]. split; [apply scanOrZero_scan|].
    cbn [newBook BookPages BookYear].
    split; [intros ->; reflexivity|]. split; [intros ->; reflexivity|].
    intros z Hz. unfold minInt64 in Hz.
    split; intros ->; now apply scanOrZero_FormatInt.
Qed.

Lemma updateBook_by_id_witness :
  reachable seeded = true /\
  updateBook seeded "42" (request "7" "The Raven" "E. A. Poe" "48" EmptyString "1845")
  = (Some errBookNotFound, seeded) /\
  exists coll',
    updateBook seeded "1000002" (request "7" "The Raven" "E. A. Poe" "48" EmptyString "1845")
    = (None, coll') /\
    docs coll' = [frankenstein; book "1000002" "The Raven" "E. A. Poe" EmptyString 48 1845].
Proof.
  split; [reflexivity|].
  split.
  - apply (updateBook_by_id seeded "42"); [reflexivity|].
    vm_compute. intuition discriminate.
  - destruct (updateBook_by_id seeded "1000002"
                (request "7" "The Raven" "E. A. Poe" "48" EmptyString "1845") eq_refl)
      as (_ & Hpresent).
    destruct Hpresent
      as (pre & b & suf & stored & coll' & Hd & Hb & Hpre & Hupd & Hdocs & _ & _
          & Hid & Hname & Hauthor & Hisbn & _ & _ & _ & _ & Hnum).
    + vm_compute. auto.
    + exists coll'. split; [exact Hupd|]. rewrite Hdocs.
      destruct (Hnum 48) as [Hpages _]; [unfold minInt64; lia|].
      destruct (Hnum 1845) as [_ Hyear]; [unfold minInt64; lia|].
      specialize (Hpages eq_refl). specialize (Hyear eq_refl).
      assert (stored = book "1000002" "The Raven" "E. A. Poe" EmptyString 48 1845) as ->.
      { destruct stored. cbn in *. unfold book. congruence. }
      destruct pre as [|x [|y pre]].
      * injection Hd as <- _. discriminate Hb.
      * injection Hd as <- <- <-. reflexivity.
      * injection Hd as _ <- _. exfalso. apply Hpre. right. left. reflexivity.
Defined.

(** C5 (amended). On a store that answers, [deleteBook] returns "book
    not found" and changes nothing when no record carries [id]; when one
    does, it returns nil and removes the first such record.  When the
    identifiers of the store are pairwise distinct, a second call with
    the same [id] after a successful one returns "book not found" and
    leaves the store as the first call left it. *)
Theorem deleteBook_by_id coll id :
  reachable coll = true ->
  (~ In id (ids coll) -> deleteBook coll id = (Some errBookNotFound, coll)) /\
  (In id (ids coll) ->
     exists pre b suf,
       docs coll = pre ++ b :: suf /\ ID b = id /\ ~ In id (List.map ID pre) /\
       deleteBook coll id = (None, withDocs coll (pre ++ suf))) /\
  (List.NoDup (ids coll) ->
     forall coll', deleteBook coll id = (None, coll') ->
       deleteBook coll' id = (Some errBookNotFound, coll')).
Proof.
  intros Hr. split; [|split].
  - now apply deleteBook_absent.
  - intros Hin. destruct (split_at_id id (docs coll) Hin) as (pre & b & suf & Hd & Hb & Hpre).
    exists pre, b, suf. repeat split; try assumption.
    now apply (deleteBook_present coll id pre b suf).
  - intros Hnd coll' Hdel.
    destruct (in_dec string_dec id (ids coll)) as [Hin|Hnot].
    + destruct (split_at_id id (docs coll) Hin) as (pre & b & suf & Hd & Hb & Hpre).
      rewrite (deleteBook_present coll id pre b suf Hr Hd Hb Hpre) in Hdel.
      injection Hdel as <-. apply deleteBook_absent; [exact Hr|].
      unfold ids in *. simpl. rewrite Hd in Hnd.
      rewrite map_app in Hnd |- *. simpl in Hnd.
      apply NoDup_remove_2 in Hnd. now rewrite Hb in Hnd.
    + rewrite (deleteBook_absent coll id Hr Hnot) in Hdel. discriminate Hdel.
Qed.

Lemma deleteBook_by_id_witness :
  reachable seeded = true /\
  deleteBook seeded "1000001" = (None, withDocs seeded [blackCat]) /\
  deleteBook (withDocs seeded [blackCat]) "1000001"
  = (Some errBookNotFound, withDocs seeded [blackCat]).
Proof.
  split; [reflexivity|].
  destruct (deleteBook_by_id seeded "1000001" eq_refl) as (_ & _ & Htwice).
  split; [reflexivity|].
  apply Htwice; [|reflexivity].
  vm_compute. repeat constructor; simpl; intuition discriminate.
Defined.

(** C5, as stated, fails: in a store where two records carry the same
    identifier, the second delete succeeds as well. *)
Lemma deleteBook_twice_succeeds :
  ~ (forall coll id coll',
       reachable coll = true ->
       deleteBook coll id = (None, coll') ->
       deleteBook coll' id = (Some errBookNotFound, coll')).
Proof.
  intros H.
  specialize (H twins "1"%string (withDocs twins [book "1" "T2" "A" "e" 1 2000])
                eq_refl eq_refl).
  vm_compute in H. discriminate H.
Qed.

(* ================================================================== *)
(** ** The DELETE handler                                              *)
(* ================================================================== *)

(** C10. [DELETE /api/books/:id] answers 204 without a body exactly when
    the store answers and holds no record with that identifier, 200 with
    an error body exactly when the store call fails, and 200 with the
    success message exactly when [deleteBook] returned nil, which is when
    the store answers and holds such a record. *)
Theorem deleteHandler_responses coll id :
  let resp := fst (deleteHandler coll id) in
  (resp = {| status := StatusNoContent; payload := Empty |}
   <-> reachable coll = true /\ ~ In id (ids coll)) /\
  (resp = {| status := StatusOK;
             payload := JSON {[ "error"%string := "Failed to delete book"%string ]} |}
   <-> reachable coll = false) /\
  (resp = {| status := StatusOK;
             payload := JSON {[ "message"%string := "Book deleted successfully"%string ]} |}
   <-> reachable coll = true /\ In id (ids coll)) /\
  (resp = {| status := StatusOK;
             payload := JSON {[ "message"%string := "Book deleted successfully"%string ]} |}
   <-> fst (deleteBook coll id) = None).
Proof.
  cbv zeta.
  destruct (reachable coll) eqn:Hr.
  - destruct (in_dec string_dec id (ids coll)) as [Hin|Hnot].
    + rewrite (deleteHandler_present coll id Hr Hin).
      destruct (split_at_id id (docs coll) Hin) as (pre & b & suf & Hd & Hb & Hpre).
      rewrite (deleteBook_present coll id pre b suf Hr Hd Hb Hpre).
      repeat split; try discriminate; try tauto.
    + rewrite (deleteHandler_absent coll id Hr Hnot), (deleteBook_absent coll id Hr Hnot).
      repeat split; try discriminate; try tauto.
  - rewrite (deleteHandler_unreachable coll id Hr), (deleteBook_unreachable coll id Hr).
    repeat split; try discriminate; try tauto;
      intros [Hf _]; discriminate Hf.
Qed.

(* ================================================================== *)
(** ** Create: the duplicate check and the write                       *)
(* ================================================================== *)

Lemma fieldFilter_matches book b :
  matches
    (M [ ("bookname"%string, Eq (BString (BookName book)));
         ("bookauthor"%string, Eq (BString (BookAuthor book)));
         ("bookyear"%string, Eq (BInt (BookYear book)));
         ("bookpages"%string, Eq (BInt (BookPages book)));
         ("bookisbn"%string, Eq (BString (BookISBN book))) ]) b = true
  <-> sameFields b book.
Proof.
  cbn. unfold sameFields.
  rewrite !andb_true_iff, !String.eqb_eq, !Z.eqb_eq.
  intuition congruence.
Qed.

Lemma bookExists_true_iff coll book :
  bookExists coll book = true
  <-> reachable coll = true /\ exists b, In b (docs coll) /\ sameFields b book.
Proof.
  unfold bookExists, FindOne. destruct (reachable coll).
  - match goal with |- context [List.find ?p ?l] => destruct (List.find p l) as [b|] eqn:Hf end.
    + apply find_some in Hf as [Hin Hm]. apply fieldFilter_matches in Hm.
      split; [|reflexivity]. intros _. split; [reflexivity|]. now exists b.
    + split; [discriminate|]. intros [_ (b & Hin & Hs)].
      apply fieldFilter_matches in Hs.
      pose proof (find_none _ _ Hf b Hin) as Hno. cbv beta in Hno. congruence.
  - split; [discriminate|]. intros [Hr _]. discriminate Hr.
Qed.

Lemma createBook_unfold coll idCounter bookReq :
  createBook coll idCounter bookReq
  = let book := newBook bookReq (writtenID coll idCounter bookReq) in
    let idCounter' := counterAfter coll idCounter bookReq in
    if bookExists coll book then (Some errBookExists, coll, idCounter')
    else
      match InsertOne coll book with
      | Ok coll' => (None, coll', idCounter')
      | Err err => (Some err, coll, idCounter')
      end.
Proof.
  unfold createBook, writtenID, counterAfter.
  destruct (String.eqb (Request.ID bookReq) EmptyString).
  - destruct (getNextID coll idCounter) as [id c]. reflexivity.
  - reflexivity.
Qed.

Lemma createBook_duplicate coll idCounter bookReq :
  reachable coll = true ->
  (exists b, In b (docs coll)
             /\ sameFields b (newBook bookReq (writtenID coll idCounter bookReq))) ->
  createBook coll idCounter bookReq
  = (Some errBookExists, coll, counterAfter coll idCounter bookReq).
Proof.
  intros Hr Hdup. rewrite createBook_unfold. cbv zeta.
  assert (bookExists coll (newBook bookReq (writtenID coll idCounter bookReq)) = true) as ->
      by (apply bookExists_true_iff; auto).
  reflexivity.
Qed.

Lemma createBook_fresh coll idCounter bookReq :
  reachable coll = true ->
  ~ (exists b, In b (docs coll)
               /\ sameFields b (newBook bookReq (writtenID coll idCounter bookReq))) ->
  createBook coll idCounter bookReq
  = (None,
     withDocs coll (docs coll ++ [newBook bookReq (writtenID coll idCounter bookReq)]),
     counterAfter coll idCounter bookReq).
Proof.
  intros Hr Hfresh. rewrite createBook_unfold. cbv zeta.
  destruct (bookExists coll (newBook bookReq (writtenID coll idCounter bookReq))) eqn:He.
  - apply bookExists_true_iff in He as [_ He]. contradiction.
  - unfold InsertOne. now rewrite Hr.
Qed.

Lemma createBook_unreachable coll idCounter bookReq :
  reachable coll = false ->
  createBook coll idCounter bookReq
  = (Some errDriver, coll, counterAfter coll idCounter bookReq).
Proof.
  intros Hr. rewrite createBook_unfold. cbv zeta.
  destruct (bookExists coll (newBook bookReq (writtenID coll idCounter bookReq))) eqn:He.
  - apply bookExists_true_iff in He as [He _]. congruence.
  - unfold InsertOne. now rewrite Hr.
Qed.

(** The duplicate check is decidable: it is the filter of [bookExists]. *)
Lemma duplicate_dec coll book :
  {exists b, In b (docs coll) /\ sameFields b book}
  + {~ exists b, In b (docs coll) /\ sameFields b book}.
Proof.
  destruct (List.find
              (matches
                 (M [ ("bookname"%string, Eq (BString (BookName book)));
                      ("bookauthor"%string, Eq (BString (BookAuthor book)));
                      ("bookyear"%string, Eq (BInt (BookYear book)));
                      ("bookpages"%string, Eq (BInt (BookPages book)));
                      ("bookisbn"%string, Eq (BString (BookISBN book))) ]))
              (docs coll)) as [b|] eqn:Hf.
  - left. apply find_some in Hf as [Hin Hm]. exists b. split; [assumption|].
    now apply fieldFilter_matches.
  - right. intros (b & Hin & Hs). apply fieldFilter_matches in Hs.
    pose proof (find_none _ _ Hf b Hin) as Hno. cbv beta in Hno. congruence.
Qed.

(** C1. On a store that answers, [createBook] returns "book already
    exists" if and only if some record of the store agrees with the
    candidate on title, author, year, pages and ISBN, and then the store
    is left as it was; otherwise it returns nil and the candidate is the
    new last record of the store. *)
Theorem createBook_duplicate_check coll idCounter bookReq :
  reachable coll = true ->
  let book := newBook bookReq (writtenID coll idCounter bookReq) in
  let out := createBook coll idCounter bookReq in
  (fst (fst out) = Some errBookExists
   <-> exists b, In b (docs coll) /\ sameFields b book) /\
  (fst (fst out) = Some errBookExists -> snd (fst out) = coll) /\
  (fst (fst out) <> Some errBookExists ->
     fst (fst out) = None /\ docs (snd (fst out)) = docs coll ++ [book]).
Proof.
  intros Hr book out. subst out.
  destruct (duplicate_dec coll book) as [Hdup|Hfresh].
  - rewrite (createBook_duplicate coll idCounter bookReq Hr Hdup). simpl.
    split; [tauto|]. split; [reflexivity|]. intros Hne. now contradiction Hne.
  - rewrite (createBook_fresh coll idCounter bookReq Hr Hfresh). simpl.
    split; [split; [discriminate|contradiction]|].
    split; [discriminate|]. intros _. split; reflexivity.
Qed.

Lemma createBook_duplicate_check_witness :
  reachable seeded = true /\
  fst (fst (createBook seeded idCounter0
              (request EmptyString "Frankenstein" "Mary Shelley" "280"
                 "978-3-649-64609-9" "1818")))
  = Some errBookExists.
Proof.
  split; [reflexivity|].
  apply (createBook_duplicate_check seeded idCounter0); [reflexivity|].
  exists frankenstein. split; [now left|]. vm_compute. auto.
Defined.

(* ================================================================== *)
(** ** Identifiers across the three writes                             *)
(* ================================================================== *)

Lemma updateBook_ids coll id bookReq :
  ids (snd (updateBook coll id bookReq)) = ids coll.
Proof.
  destruct (reachable coll) eqn:Hr.
  - destruct (in_dec string_dec id (ids coll)) as [Hin|Hnot].
    + destruct (split_at_id id (docs coll) Hin) as (pre & b & suf & Hd & Hb & Hpre).
      rewrite (updateBook_present coll id bookReq pre b suf Hr Hd Hb Hpre).
      unfold ids. simpl. rewrite Hd, !map_app. simpl. now rewrite Hb.
    + now rewrite (updateBook_absent coll id bookReq Hr Hnot).
  - now rewrite (updateBook_unreachable coll id bookReq Hr).
Qed.

Lemma deleteBook_ids_NoDup coll id :
  List.NoDup (ids coll) -> List.NoDup (ids (snd (deleteBook coll id))).
Proof.
  intros Hnd. destruct (reachable coll) eqn:Hr.
  - destruct (in_dec string_dec id (ids coll)) as [Hin|Hnot].
    + destruct (split_at_id id (docs coll) Hin) as (pre & b & suf & Hd & Hb & Hpre).
      rewrite (deleteBook_present coll id pre b suf Hr Hd Hb Hpre).
      unfold ids in *. simpl. rewrite Hd in Hnd. rewrite map_app in Hnd |- *.
      simpl in Hnd. now apply NoDup_remove_1 in Hnd.
    + now rewrite (deleteBook_absent coll id Hr Hnot).
  - now rewrite (deleteBook_unreachable coll id Hr).
Qed.

Lemma NoDup_snoc_iff (l : list string) (x : string) :
  List.NoDup l -> (List.NoDup (l ++ [x]) <-> ~ In x l).
Proof.
  intros Hnd. split.
  - intros H Hin. apply NoDup_remove_2 in H. apply H. rewrite app_nil_r. exact Hin.
  - intros Hnot. apply NoDup_rev in Hnd.
    rewrite <- (rev_involutive (l ++ [x])). apply NoDup_rev.
    rewrite rev_app_distr. simpl. constructor; [|assumption].
    now rewrite <- in_rev.
Qed.

(** C3 (amended). Starting from pairwise-distinct identifiers,
    [updateBook] and [deleteBook] leave the identifiers pairwise
    distinct, and so does a [createBook] that fails.  A [createBook]
    that succeeds appends the candidate under the identifier it was
    given or allotted, and the identifiers are pairwise distinct
    afterwards exactly when that identifier was not in the store: the
    create path compares the five content fields only, never the
    identifier. *)
Theorem distinct_ids_preserved coll :
  List.NoDup (ids coll) ->
  (forall id bookReq, List.NoDup (ids (snd (updateBook coll id bookReq)))) /\
  (forall id, List.NoDup (ids (snd (deleteBook coll id)))) /\
  (forall idCounter bookReq err coll' idCounter',
     createBook coll idCounter bookReq = (Some err, coll', idCounter') -> coll' = coll) /\
  (forall idCounter bookReq coll' idCounter',
     createBook coll idCounter bookReq = (None, coll', idCounter') ->
     docs coll' = docs coll ++ [newBook bookReq (writtenID coll idCounter bookReq)] /\
     (List.NoDup (ids coll') <-> ~ In (writtenID coll idCounter bookReq) (ids coll))).
Proof.
  intros Hnd. split; [|split; [|split]].
  - intros id bookReq. now rewrite updateBook_ids.
  - intros id. now apply deleteBook_ids_NoDup.
  - intros idCounter bookReq err coll' idCounter' Hc.
    rewrite createBook_unfold in Hc. cbv zeta in Hc.
    destruct (bookExists coll _); [congruence|].
    destruct (InsertOne coll _); congruence.
  - intros idCounter bookReq coll' idCounter' Hc.
    destruct (reachable coll) eqn:Hr.
    + destruct (duplicate_dec coll (newBook bookReq (writtenID coll idCounter bookReq)))
        as [Hdup|Hfresh].
      * rewrite (createBook_duplicate coll idCounter bookReq Hr Hdup) in Hc. discriminate Hc.
      * rewrite (createBook_fresh coll idCounter bookReq Hr Hfresh) in Hc.
        injection Hc as <- _. split; [reflexivity|].
        unfold ids. simpl. rewrite map_app. simpl.
        now apply NoDup_snoc_iff.
    + rewrite (createBook_unreachable coll idCounter bookReq Hr) in Hc. discriminate Hc.
Qed.

Lemma distinct_ids_preserved_witness :
  List.NoDup (ids seeded) /\
  List.NoDup (ids (snd (deleteBook seeded "1000001"))) /\
  List.NoDup
    (ids (snd (fst (createBook seeded idCounter0
                      (request "77" "The Raven" "E. A. Poe" "8" "e" "1845"))))).
Proof.
  assert (List.NoDup (ids seeded)) as Hnd.
  { vm_compute. repeat constructor; simpl; intuition discriminate. }
  split; [exact Hnd|].
  destruct (distinct_ids_preserved seeded Hnd) as (_ & Hdel & _ & Hcreate).
  split; [apply Hdel|].
  destruct (createBook seeded idCounter0
              (request "77" "The Raven" "E. A. Poe" "8" "e" "1845"))
    as [[err coll'] c'] eqn:Hc.
  assert (err = None) as -> by (vm_compute in Hc; congruence).
  apply (Hcreate _ _ _ _ Hc). vm_compute. intuition discriminate.
Defined.

(** C3, as stated, fails: a create request that names an identifier the
    store already holds, with a new title, succeeds and leaves two
    records under that identifier. *)
Lemma createBook_repeats_id :
  ~ (forall coll idCounter bookReq coll' idCounter',
       reachable coll = true ->
       List.NoDup (ids coll) ->
       createBook coll idCounter bookReq = (None, coll', idCounter') ->
       List.NoDup (ids coll')).
Proof.
  intros H.
  assert (List.NoDup (ids seeded)) as Hnd.
  { vm_compute. repeat constructor; simpl; intuition discriminate. }
  specialize (H seeded idCounter0
                (request "1000002" "The Raven" "Edgar Allan Poe" "8" "e" "1845")
                _ _ eq_refl Hnd eq_refl).
  vm_compute in H.
  inversion H as [|x l Hnotin Hrest]; subst.
  inversion Hrest as [|y l' Hnotin' _]; subst.
  apply Hnotin'. now left.
Qed.

(* ================================================================== *)
(** ** Numeric fields that do not scan                                 *)
(* ================================================================== *)

Lemma scanOrZero_failed s : Sscanf_d s = None -> scanOrZero s = 0.
Proof.
  intros Hs. unfold scanOrZero. rewrite Hs. now destruct (String.eqb s EmptyString).
Qed.

Lemma newBook_withRaw f bookReq bookID :
  Sscanf_d (rawOf f bookReq) = None ->
  newBook (withRaw f "0" bookReq) bookID = newBook bookReq bookID.
Proof.
  intros Hs. apply scanOrZero_failed in Hs.
  destruct f, bookReq; unfold newBook; simpl in *; rewrite Hs; reflexivity.
Qed.

Lemma withRaw_ID f s bookReq : Request.ID (withRaw f s bookReq) = Request.ID bookReq.
Proof. now destruct f. Qed.

Lemma createBook_withRaw f coll idCounter bookReq :
  Sscanf_d (rawOf f bookReq) = None ->
  createBook coll idCounter (withRaw f "0" bookReq) = createBook coll idCounter bookReq.
Proof.
  intros Hs. unfold createBook. rewrite withRaw_ID.
  destruct (String.eqb (Request.ID bookReq) EmptyString).
  - destruct (getNextID coll idCounter) as [bookID c].
    now rewrite (newBook_withRaw f bookReq bookID Hs).
  - now rewrite (newBook_withRaw f bookReq _ Hs).
Qed.

Lemma updateBook_withRaw f coll id bookReq :
  Sscanf_d (rawOf f bookReq) = None ->
  updateBook coll id (withRaw f "0" bookReq) = updateBook coll id bookReq.
Proof.
  intros Hs. apply scanOrZero_failed in Hs.
  destruct f, bookReq; unfold updateBook; simpl in *; rewrite Hs; reflexivity.
Qed.

(** C8 (amended). When [fmt.Sscanf] with the verb [%d] reads no integer
    from the string given for pages (or for year), the candidate carries
    0 in that field, and create and
    update behave exactly as they do on the same request with "0" in
    that field, so the failed scan surfaces nowhere: on a store that
    answers, create succeeds unless the record is a duplicate and update
    succeeds whenever the identifier exists, and the record written has
    0 in that field. *)
Theorem scan_failure_stores_zero (f : numField) coll idCounter id bookReq :
  Sscanf_d (rawOf f bookReq) = None ->
  (forall bookID, storedOf f (newBook bookReq bookID) = 0) /\
  createBook coll idCounter bookReq = createBook coll idCounter (withRaw f "0" bookReq) /\
  updateBook coll id bookReq = updateBook coll id (withRaw f "0" bookReq) /\
  (reachable coll = true ->
   ~ (exists b, In b (docs coll)
                /\ sameFields b (newBook bookReq (writtenID coll idCounter bookReq))) ->
   exists stored coll' idCounter',
     createBook coll idCounter bookReq = (None, coll', idCounter') /\
     docs coll' = docs coll ++ [stored] /\ storedOf f stored = 0) /\
  (reachable coll = true -> In id (ids coll) ->
   exists pre b suf stored,
     docs coll = pre ++ b :: suf /\ ID b = id /\ ~ In id (List.map ID pre) /\
     updateBook coll id bookReq = (None, withDocs coll (pre ++ stored :: suf)) /\
     ID stored = id /\ storedOf f stored = 0).
Proof.
  intros Hs.
  assert (forall bookID, storedOf f (newBook bookReq bookID) = 0) as Hzero.
  { intros bookID. apply scanOrZero_failed in Hs. destruct f; exact Hs. }
  split; [exact Hzero|].
  split; [symmetry; now apply createBook_withRaw|].
  split; [symmetry; now apply updateBook_withRaw|].
  split.
  - intros Hr Hfresh.
    exists (newBook bookReq (writtenID coll idCounter bookReq)),
      (withDocs coll (docs coll ++ [newBook bookReq (writtenID coll idCounter bookReq)])),
      (counterAfter coll idCounter bookReq).
    split; [now apply createBook_fresh|]. split; [reflexivity|apply Hzero].
  - intros Hr Hin.
    destruct (split_at_id id (docs coll) Hin) as (pre & b & suf & Hd & Hb & Hpre).
    exists pre, b, suf, (newBook bookReq id). repeat split; try assumption.
    + now apply (updateBook_present coll id bookReq pre b suf).
    + apply Hzero.
Qed.

Lemma scan_failure_stores_zero_witness :
  Sscanf_d (rawOf FPages
              (request EmptyString "The Raven" "E. A. Poe" "many" "e" "1845")) = None /\
  createBook seeded idCounter0
    (request EmptyString "The Raven" "E. A. Poe" "many" "e" "1845")
  = createBook seeded idCounter0
      (request EmptyString "The Raven" "E. A. Poe" "0" "e" "1845").
Proof.
  split; [reflexivity|].
  apply (scan_failure_stores_zero FPages seeded idCounter0 "1000002"
           (request EmptyString "The Raven" "E. A. Poe" "many" "e" "1845")).
  reflexivity.
Defined.

(** C8, as stated, fails: "12abc" does not parse as an integer, yet the
    scan reads the leading 12 and the record is stored with 12 pages. *)
Lemma non_integer_is_stored :
  ~ (forall coll idCounter bookReq stored coll' idCounter',
       reachable coll = true ->
       ParseInt (Request.Pages bookReq) = None ->
       createBook coll idCounter bookReq = (None, coll', idCounter') ->
       docs coll' = docs coll ++ [stored] ->
       BookPages stored = 0).
Proof.
  intros H.
  specialize (H emptyStore idCounter0
                (request "7" "The Raven" "E. A. Poe" "12abc" "e" "1845")
                (book "7" "The Raven" "E. A. Poe" "e" 12 1845)
                (withDocs emptyStore [book "7" "The Raven" "E. A. Poe" "e" 12 1845])
                idCounter0 eq_refl eq_refl eq_refl eq_refl).
  discriminate H.
Qed.

(* ================================================================== *)
(** ** Grouping by author                                              *)
(* ================================================================== *)

Lemma authorStep_skip m res :
  qualifies res = false -> authorStep m res = m.
Proof.
  unfold qualifies, authorStep. intros Hq.
  destruct (String.eqb (BookISBN res) EmptyString), (String.eqb (BookName res) EmptyString);
    simpl in *; congruence.
Qed.

Lemma authorStep_keep m res :
  qualifies res = true ->
  authorStep m res
  = <[BookAuthor res := default [] (m !! BookAuthor res) ++ [BookName res]]> m.
Proof.
  unfold qualifies, authorStep. intros Hq.
  destruct (String.eqb (BookISBN res) EmptyString), (String.eqb (BookName res) EmptyString);
    simpl in *; congruence.
Qed.

Lemma bucket_cons author res l :
  bucket author (res :: l)
  = if qualifies res && String.eqb (BookAuthor res) author
    then BookName res :: bucket author l
    else bucket author l.
Proof.
  unfold bucket. simpl.
  now destruct (qualifies res && String.eqb (BookAuthor res) author).
Qed.

(** The map after the scan, key by key: the titles already filed under
    the author followed by the titles the scan adds. *)
Lemma fold_authorStep_lookup l :
  forall (m : gmap string (list string)) author,
    fold_left authorStep l m !! author
    = match bucket author l with
      | [] => m !! author
      | titles => Some (default [] (m !! author) ++ titles)
      end.
Proof.
  induction l as [|res l IH]; intros m author; [reflexivity|].
  simpl fold_left. rewrite IH, bucket_cons.
  destruct (qualifies res) eqn:Hq.
  - rewrite (authorStep_keep m res Hq). simpl andb.
    destruct (String.eqb (BookAuthor res) author) eqn:Ha.
    + apply String.eqb_eq in Ha. subst author.
      rewrite lookup_insert_eq. simpl default.
      destruct (bucket (BookAuthor res) l) as [|t ts]; [reflexivity|].
      now rewrite <- app_assoc.
    + apply String.eqb_neq in Ha.
      now rewrite lookup_insert_ne.
  - now rewrite (authorStep_skip m res Hq).
Qed.

Lemma authorBooksOf_lookup l author :
  authorBooksOf l !! author
  = match bucket author l with
    | [] => None
    | titles => Some titles
    end.
Proof.
  unfold authorBooksOf. rewrite fold_authorStep_lookup, lookup_empty.
  now destruct (bucket author l).
Qed.

Lemma authorBooksOf_Some l author titles :
  authorBooksOf l !! author = Some titles
  <-> bucket author l <> [] /\ titles = bucket author l.
Proof.
  rewrite authorBooksOf_lookup. destruct (bucket author l) as [|t ts].
  - split; [discriminate|]. intros [H _]. now contradiction H.
  - split.
    + intros [= <-]. split; [discriminate|reflexivity].
    + intros [_ ->]. reflexivity.
Qed.

Lemma bucket_key3 author l :
  forall l', List.map key3 l' = List.map key3 l -> bucket author l' = bucket author l.
Proof.
  induction l as [|res l IH]; intros [|res' l'] Hk; try discriminate Hk; [reflexivity|].
  simpl in Hk. unfold key3 at 1 3 in Hk. injection Hk as Ha Hn Hi Hl.
  rewrite !bucket_cons, (IH l' Hl).
  unfold qualifies. now rewrite Ha, Hn, Hi.
Qed.

Lemma authorMap_inj e1 e2 : authorMap e1 = authorMap e2 -> e1 = e2.
Proof.
  destruct e1 as [a1 t1], e2 as [a2 t2]. unfold authorMap. simpl. intros H.
  pose proof (f_equal (fun m : gmap string value => m !! "BookAuthor"%string) H) as Ha.
  pose proof (f_equal (fun m : gmap string value => m !! "BookName"%string) H) as Ht.
  cbv beta in Ha, Ht.
  do 2 (rewrite lookup_insert_ne, lookup_insert_eq in Ha by discriminate).
  rewrite !lookup_insert_eq in Ht.
  congruence.
Qed.

(** C9. On a store that answers, [getAuthors] skips exactly the records
    with an empty ISBN or an empty title and returns one row per author
    that has a record left; the row is the map with the author under
    "BookAuthor" and, under "BookName", the titles of exactly those
    records of the author, in scan order.  No row comes twice; the order
    of the rows is not fixed.  Two stores whose records agree, position
    by position, on author, title and ISBN give the same rows up to
    their order. *)
Theorem getAuthors_buckets coll :
  reachable coll = true ->
  (forall res, qualifies res = false
               <-> BookISBN res = EmptyString \/ BookName res = EmptyString) /\
  (exists rows,
     getAuthors coll = Some rows /\
     List.NoDup rows /\
     forall row, In row rows <->
       exists author : string,
         let titles :=
           List.map BookName
             (List.filter (fun res => qualifies res && String.eqb (BookAuthor res) author)
                (docs coll)) in
         titles <> [] /\
         row = <["BookName"%string := VStrings titles]>
               (<["BookAuthor"%string := VString author]> ∅)) /\
  (forall coll' rows rows', reachable coll' = true ->
     List.map key3 (docs coll') = List.map key3 (docs coll) ->
     getAuthors coll = Some rows -> getAuthors coll' = Some rows' ->
     Permutation rows rows').
Proof.
  intros Hr.
  assert (forall l : list BookStore, List.filter (matches emptyFilter) l = l) as Hall
      by (induction l as [|x l IH]; simpl; congruence).
  split; [|split].
  - intros res. unfold qualifies.
    rewrite andb_false_iff, !negb_false_iff, !String.eqb_eq. tauto.
  - unfold getAuthors, Find. rewrite Hr, Hall.
    eexists. split; [reflexivity|]. split.
    + apply NoDup_ListNoDup. apply NoDup_fmap_2; [exact authorMap_inj|].
      apply NoDup_map_to_list.
    + intros row. rewrite in_map_iff. cbv zeta. split.
      * intros ([author titles] & <- & Hin).
        apply list_elem_of_In, elem_of_map_to_list, authorBooksOf_Some in Hin
          as [Hne ->].
        exists author. split; [exact Hne|reflexivity].
      * intros (author & Hne & ->).
        exists (author, bucket author (docs coll)). split; [reflexivity|].
        apply list_elem_of_In, elem_of_map_to_list, authorBooksOf_Some. now split.
  - intros coll' rows rows' Hr' Hk. unfold getAuthors, Find. rewrite Hr, Hr'.
    rewrite !Hall. intros [= <-] [= <-].
    replace (authorBooksOf (docs coll')) with (authorBooksOf (docs coll)); [reflexivity|].
    apply map_eq. intros author. rewrite !authorBooksOf_lookup.
    now rewrite (bucket_key3 author (docs coll) (docs coll') Hk).
Qed.

Lemma getAuthors_buckets_witness :
  reachable seeded = true /\
  exists rows,
    getAuthors seeded = Some rows /\
    In (<["BookName"%string := VStrings ["Frankenstein"%string]]>
        (<["BookAuthor"%string := VString "Mary Shelley"]> ∅)) rows /\
    In (<["BookName"%string := VStrings ["The Black Cat"%string]]>
        (<["BookAuthor"%string := VString "Edgar Allan Poe"]> ∅)) rows.
Proof.
  split; [reflexivity|].
  destruct (getAuthors_buckets seeded eq_refl) as (_ & (rows & Hrows & _ & Hin) & _).
  exists rows. split; [exact Hrows|]. split; apply Hin.
  - exists "Mary Shelley"%string. split; [discriminate|reflexivity].
  - exists "Edgar Allan Poe"%string. split; [discriminate|reflexivity].
Defined.

(* ================================================================== *)
(** ** Search                                                          *)
(* ================================================================== *)

Lemma isCont_toLower c : isCont (toLower c) = isCont c.
Proof. destruct c as [[] [] [] [] [] [] [] []]; reflexivity. Qed.



Lemma startsWithCont_lowerASCII s :
  startsWithCont (lowerASCII s) = startsWithCont s.
Proof. destruct s as [|b r]; [reflexivity|]. apply isCont_toLower. Qed.

(** Lowering ASCII letters does not move the borders between
    characters. *)
Lemma chars_lowerASCII s : chars (lowerASCII s) = List.map lowerASCII (chars s).
Proof.
  induction s as [|c r IH]; [reflexivity|].
  cbn [lowerASCII chars]. rewrite IH, startsWithCont_lowerASCII.
  destruct (chars r) as [|ch chs]; [reflexivity|].
  cbn [List.map]. now destruct (startsWithCont r).
Qed.





(** In a text without metacharacters every character begins with a
    byte that is none. *)
Lemma chars_heads s :
  forallb (fun c => negb (isMeta c)) (list_ascii_of_string s) = true ->
  Forall (fun ch => match ch with
                    | String c _ => isMeta c = false
                    | EmptyString => True
                    end) (chars s).
Proof.
  induction s as [|c r IH]; [constructor|].
  cbn [list_ascii_of_string forallb chars].
  rewrite andb_true_iff, negb_true_iff. intros [Hc Hr]. specialize (IH Hr).
  destruct (chars r) as [|ch chs]; [repeat constructor; exact Hc|].
  inversion IH as [|? ? Hch Hchs]; subst.
  destruct (startsWithCont r); repeat constructor; assumption.
Qed.

Lemma compileChars_literal chs :
  Forall (fun ch => match ch with
                    | String c _ => isMeta c = false
                    | EmptyString => True
                    end) chs ->
  compileChars chs = Some (List.map Lit chs).
Proof.
  induction 1 as [|ch chs Hch _ IH]; [reflexivity|].
  cbn [compileChars List.map]. rewrite IH.
  assert (String.eqb ch "." = false) as ->.
  { apply String.eqb_neq. intros ->. discriminate Hch. }
  assert (isMetaChar ch = false) as ->; [|reflexivity].
  destruct ch as [|c [|c' r]]; [reflexivity|exact Hch|reflexivity].
Qed.

(** A query without metacharacters compiles to the sequence of its
    characters. *)
Lemma regexCompile_literal fold q :
  literalQuery q = true ->
  regexCompile fold q = Some {| foldOf := fold; atoms := List.map Lit (chars q) |}.
Proof.
  intros Hlit. unfold regexCompile.
  now rewrite (compileChars_literal (chars q) (chars_heads q Hlit)).
Qed.

Lemma matchHere_literal fold qs :
  forall subject,
    matchHere fold (List.map Lit qs) subject
    = prefixb (List.map fold qs) (List.map fold subject).
Proof.
  induction qs as [|a qs IH]; intros [|b subject]; try reflexivity.
  cbn [List.map matchHere prefixb atomMatches]. now rewrite IH.
Qed.

Lemma regexSearch_literal fold qs subject :
  regexSearch fold (List.map Lit qs) subject
  = sublistb (List.map fold qs) (List.map fold subject).
Proof.
  induction subject as [|c subject IH]; cbn [regexSearch sublistb List.map];
    rewrite matchHere_literal; [reflexivity|now rewrite IH].
Qed.

Lemma regexMatches_literal fold q t :
  regexMatches {| foldOf := fold; atoms := List.map Lit (chars q) |} t
  = occursUpTob fold q t.
Proof. unfold regexMatches, occursUpTob, foldText. apply regexSearch_literal. Qed.

(** The filter of the handler on a document: the pattern is looked for
    in title, author and ISBN; no document has the key "bookedition". *)
Lemma searchFilter_matches re b :
  matches (searchFilter re) b
  = regexMatches re (BookName b) || regexMatches re (BookAuthor b)
    || regexMatches re (BookISBN b).
Proof.
  cbn. now rewrite !andb_true_r, !orb_false_r, orb_assoc.
Qed.





(* ================================================================== *)
(** ** The identifier allocator                                        *)
(* ================================================================== *)

Lemma leb_iff s t : String.leb s t = true <-> s = t \/ String_as_OT.lt s t.
Proof.
  unfold String.leb. destruct (String.compare s t) eqn:Hc.
  - apply String_as_OT.cmp_eq in Hc. tauto.
  - apply String_as_OT.cmp_lt in Hc. tauto.
  - split; [discriminate|]. intros [He|Hl].
    + apply String_as_OT.cmp_eq in He. unfold String_as_OT.cmp in He. congruence.
    + apply String_as_OT.cmp_lt in Hl. unfold String_as_OT.cmp in Hl. congruence.
Qed.

Lemma leb_refl s : String.leb s s = true.
Proof. apply leb_iff. now left. Qed.

Lemma leb_trans s t u :
  String.leb s t = true -> String.leb t u = true -> String.leb s u = true.
Proof.
  rewrite !leb_iff. intros [->|Hst] [->|Htu]; auto.
  right. exact (String_as_OT.lt_trans _ _ _ Hst Htu).
Qed.

Lemma insertDesc_id b l :
  insertDesc "id" b l
  = match l with
    | [] => [b]
    | x :: r => if String.leb (ID x) (ID b) then b :: l else x :: insertDesc "id" b r
    end.
Proof. destruct l; reflexivity. Qed.

(** Sorting by "id" in descending order puts a record with the greatest
    identifier, in the byte order of strings, at the head. *)
Lemma sortDesc_id_head l :
  l <> [] ->
  exists r rest,
    sortDesc "id" l = r :: rest /\ In r l /\
    forall x, In x l -> String.leb (ID x) (ID r) = true.
Proof.
  induction l as [|b l IH]; intros Hne; [now contradiction Hne|].
  unfold sortDesc. simpl fold_right. fold (sortDesc "id" l).
  destruct l as [|b' l'].
  - exists b, []. repeat split; [now left|]. intros x [<-|[]]. apply leb_refl.
  - destruct IH as (r & rest & Hs & Hin & Hmax); [discriminate|].
    rewrite Hs, insertDesc_id.
    destruct (String.leb (ID r) (ID b)) eqn:Hrb.
    + exists b, (r :: rest). repeat split; [now left|].
      intros x [<-|Hx]; [apply leb_refl|].
      eapply leb_trans; [now apply Hmax|exact Hrb].
    + exists r, (insertDesc "id" b rest). repeat split; [now right|].
      intros x [<-|Hx]; [|now apply Hmax].
      destruct (String.leb_total (ID b) (ID r)) as [H|H]; [exact H|congruence].
Qed.

Lemma match_id_exists l :
  List.filter (matchesM [("id"%string, Exists true)]) l = l.
Proof. induction l as [|x l IH]; [reflexivity|]. cbn. cbn in IH. now rewrite IH. Qed.

Lemma getNextID_unreachable coll idCounter :
  reachable coll = false ->
  getNextID coll idCounter = (FormatInt idCounter, wrap64 (idCounter + 1)).
Proof. intros Hr. unfold getNextID, Aggregate. now rewrite Hr. Qed.

(** With no record in the store the allocator hands out the counter. *)
Lemma getNextID_empty coll idCounter :
  docs coll = [] ->
  getNextID coll idCounter = (FormatInt idCounter, wrap64 (idCounter + 1)).
Proof.
  intros Hd. unfold getNextID, Aggregate. rewrite Hd.
  now destruct (reachable coll).
Qed.

(** A fresh process on an empty store: "1000000", then "1000001". *)
Lemma getNextID_twice_on_empty coll :
  docs coll = [] ->
  let '(id1, c1) := getNextID coll idCounter0 in
  let '(id2, _) := getNextID coll c1 in
  id1 = "1000000"%string /\ id2 = "1000001"%string.
Proof.
  intros Hd. rewrite !(getNextID_empty coll _ Hd). split; reflexivity.
Qed.

(** What the allocator does on a store that answers and is not empty:
    it takes a record whose identifier is greatest in the byte order of
    strings, and answers the successor of that identifier when it
    parses, the counter when it does not. *)
Lemma getNextID_string_maximum coll idCounter :
  reachable coll = true -> docs coll <> [] ->
  exists r,
    In r (docs coll) /\
    (forall x, In x (docs coll) -> String.leb (ID x) (ID r) = true) /\
    getNextID coll idCounter
    = match ParseInt (ID r) with
      | Some existingID =>
          (FormatInt (wrap64 (existingID + 1)), wrap64 (wrap64 (existingID + 1) + 1))
      | None => (FormatInt idCounter, wrap64 (idCounter + 1))
      end.
Proof.
  intros Hr Hne.
  destruct (sortDesc_id_head (docs coll) Hne) as (r & rest & Hs & Hin & Hmax).
  exists r. repeat split; [assumption..|].
  unfold getNextID, Aggregate. rewrite Hr.
  cbn [fold_left runStage]. rewrite match_id_exists, Hs.
  simpl. now destruct (ParseInt (ID r)).
Qed.

(** C2, at the input where the code departs from it.  The store holds
    the identifiers "9" and "10"; both parse, and the numerically
    largest is 10.  The allocator sorts the identifiers as strings, so
    it returns the successor of "9", that is "10", which the store
    already holds, and not "11". *)
Theorem getNextID_sorts_strings :
  ids nineTen = ["9"%string; "10"%string] /\
  List.map ParseInt (ids nineTen) = [Some 9; Some 10] /\
  getNextID nineTen idCounter0 = ("10"%string, 11) /\
  In (fst (getNextID nineTen idCounter0)) (ids nineTen) /\
  fst (getNextID nineTen idCounter0) <> FormatInt (10 + 1).
Proof.
  repeat split; try reflexivity.
  - right. now left.
  - discriminate.
Qed.

(* ================================================================== *)
(** ** Listing the store                                               *)
(* ================================================================== *)

Lemma filter_emptyFilter (l : list BookStore) :
  List.filter (matches emptyFilter) l = l.
Proof. induction l as [|x l IH]; [reflexivity|]. cbn. cbn in IH. now rewrite IH. Qed.

Lemma findAllBooks_rows coll :
  reachable coll = true ->
  findAllBooks coll = Some (List.map bookMapAll (docs coll)).
Proof.
  intros Hr. unfold findAllBooks, Find. now rewrite Hr, filter_emptyFilter.
Qed.

(** A row of the listing carries the identifier, title, author, ISBN and
    pages of its record, and no year. *)
Lemma bookMapAll_keys res :
  bookMapAll res !! "ID"%string = Some (VString (ID res)) /\
  bookMapAll res !! "BookName"%string = Some (VString (BookName res)) /\
  bookMapAll res !! "BookAuthor"%string = Some (VString (BookAuthor res)) /\
  bookMapAll res !! "BookISBN"%string = Some (VString (BookISBN res)) /\
  bookMapAll res !! "BookPages"%string = Some (VInt (BookPages res)) /\
  bookMapAll res !! "BookYear"%string = None.
Proof. repeat split; reflexivity. Qed.

Lemma sameFields_tuple5 a b : sameFields a b <-> tuple5 a = tuple5 b.
Proof.
  unfold sameFields, tuple5. split.
  - intros (-> & -> & -> & -> & ->). reflexivity.
  - intros [= -> -> -> -> ->]. repeat split.
Qed.

(** Requests with pairwise-distinct field tuples, none of which is in the
    store, are all accepted, and the store then holds its old records
    followed by one record per request, in the order of the requests. *)
Lemma createAll_distinct reqs :
  forall coll idCounter,
    reachable coll = true ->
    List.NoDup (List.map tuple5 (docs coll) ++ List.map reqTuple reqs) ->
    exists errs coll' idCounter',
      createAll coll idCounter reqs = (errs, coll', idCounter') /\
      errs = List.map (fun _ => None) reqs /\
      reachable coll' = true /\
      List.map tuple5 (docs coll') = List.map tuple5 (docs coll) ++ List.map reqTuple reqs.
Proof.
  induction reqs as [|bookReq reqs IH]; intros coll idCounter Hr Hnd.
  - exists [], coll, idCounter. simpl. now rewrite app_nil_r.
  - simpl createAll.
    assert (~ exists b, In b (docs coll)
                        /\ sameFields b (newBook bookReq (writtenID coll idCounter bookReq)))
      as Hfresh.
    { intros (b & Hin & Hs). apply sameFields_tuple5 in Hs.
      simpl in Hnd. apply NoDup_remove_2 in Hnd. apply Hnd.
      apply in_or_app. left. apply in_map_iff. exists b. split; [|assumption].
      rewrite Hs. reflexivity. }
    rewrite (createBook_fresh coll idCounter bookReq Hr Hfresh).
    set (coll1 := withDocs coll
                    (docs coll ++ [newBook bookReq (writtenID coll idCounter bookReq)])).
    assert (List.map tuple5 (docs coll1)
            = List.map tuple5 (docs coll) ++ [reqTuple bookReq]) as Hd1.
    { unfold coll1. simpl. now rewrite map_app. }
    destruct (IH coll1 (counterAfter coll idCounter bookReq)) as (errs & coll' & c' & Hc & He & Hr' & Hd').
    + exact Hr.
    + rewrite Hd1, <- app_assoc. exact Hnd.
    + rewrite Hc. exists (None :: errs), coll', c'.
      repeat split; [simpl; now rewrite He|assumption|].
      rewrite Hd', Hd1, <- app_assoc. reflexivity.
Qed.

(** C6, at the input where the code departs from it.  The two seed
    requests, with different field tuples, are created in an empty
    store.  Both are stored, with their years; the listing returns one
    row per record but no row has a year, while [getBookByID] returns
    the year of the same record; two records that differ in the year
    alone are listed as equal rows. *)
Theorem findAllBooks_drops_year :
  exists coll idCounter,
    createAll emptyStore idCounter0 seedRequests = ([None; None], coll, idCounter) /\
    List.map ID (docs coll) = ["1000000"%string; "1000001"%string] /\
    List.map BookYear (docs coll) = [1818; 1843] /\
    findAllBooks coll = Some (List.map bookMapAll (docs coll)) /\
    (forall row, In row (List.map bookMapAll (docs coll)) ->
                 row !! "BookYear"%string = None) /\
    (exists m, getBookByID coll "1000001" = Ok m
               /\ m !! "BookYear"%string = Some (VInt 1843)) /\
    bookMapAll (book "1" "T" "A" "e" 1 1843) = bookMapAll (book "1" "T" "A" "e" 1 1900).
Proof.
  eexists _, _. split; [vm_compute; reflexivity|].
  split; [reflexivity|]. split; [reflexivity|]. split; [reflexivity|].
  split; [|split; [|reflexivity]].
  - intros row Hin. apply in_map_iff in Hin as (res & <- & _). apply bookMapAll_keys.
  - eexists. split; [vm_compute; reflexivity|]. reflexivity.
Qed.

(* ================================================================== *)
(** ** Numbers printed, parsed and stored                              *)
(* ================================================================== *)

(** X1. Printing an [int64] with [FormatInt] and parsing the result with
    [ParseInt] gives the integer back. *)
Theorem format_then_parse z :
  minInt64 <= z < 2 ^ 63 -> ParseInt (FormatInt z) = Some z.
Proof. unfold minInt64. apply ParseInt_FormatInt. Qed.

Lemma format_then_parse_witness :
  minInt64 <= -42 < 2 ^ 63 /\ ParseInt (FormatInt (-42)) = Some (-42).
Proof.
  assert (minInt64 <= -42 < 2 ^ 63) as H by (unfold minInt64; lia).
  split; [exact H|]. exact (format_then_parse (-42) H).
Defined.

(** X2. A numeric field that holds the decimal rendering of an [int64],
    followed by any text that does not begin with a digit, is stored as
    that integer: the scan reads the leading number and ignores the
    rest. *)
Theorem scan_reads_leading_integer z rest :
  minInt64 <= z < 2 ^ 63 -> startsWithDigit rest = false ->
  Sscanf_d (String.append (FormatInt z) rest) = Some z /\
  scanOrZero (String.append (FormatInt z) rest) = z.
Proof.
  intros Hz Hrest. unfold minInt64 in Hz.
  pose proof (Sscanf_d_FormatInt z rest Hz Hrest) as Hs.
  split; [exact Hs|]. unfold scanOrZero. rewrite Hs.
  destruct (String.eqb (String.append (FormatInt z) rest) EmptyString) eqn:E; [|reflexivity].
  apply String.eqb_eq in E. rewrite E in Hs. discriminate Hs.
Qed.

Lemma scan_reads_leading_integer_witness :
  minInt64 <= 292 < 2 ^ 63 /\ startsWithDigit " pages" = false /\
  scanOrZero "292 pages" = 292.
Proof.
  assert (minInt64 <= 292 < 2 ^ 63) as H by (unfold minInt64; lia).
  split; [exact H|]. split; [reflexivity|].
  exact (proj2 (scan_reads_leading_integer 292 " pages" H eq_refl)).
Defined.

(** X3. Whatever the request holds, the pages and the year of the record
    built from it lie in the range of [int64]: a decimal numeral that
    does not fit, alone or followed by text that does not begin with a
    digit, makes the scan fail, and the field is 0. *)
Theorem stored_numbers_in_range bookReq bookID :
  minInt64 <= BookPages (newBook bookReq bookID) < 2 ^ 63 /\
  minInt64 <= BookYear (newBook bookReq bookID) < 2 ^ 63 /\
  scanOrZero "9223372036854775808" = 0 /\
  (forall z rest,
     ~ (minInt64 <= z < 2 ^ 63) -> startsWithDigit rest = false ->
     (Request.Pages bookReq = String.append (FormatInt z) rest ->
      BookPages (newBook bookReq bookID) = 0) /\
     (Request.Year bookReq = String.append (FormatInt z) rest ->
      BookYear (newBook bookReq bookID) = 0)).
Proof.
  unfold minInt64. cbn [newBook BookPages BookYear].
  split; [apply scanOrZero_range|].
  split; [apply scanOrZero_range|]. split; [reflexivity|].
  intros z rest Hz Hrest. split; intros ->; now apply scanOrZero_too_large.
Qed.

Lemma stored_numbers_in_range_witness :
  ~ (minInt64 <= 2 ^ 63 < 2 ^ 63) /\ startsWithDigit " pages" = false /\
  BookPages (newBook (request EmptyString "The Raven" "E. A. Poe"
                        "9223372036854775808 pages" "e" "1845") "7") = 0.
Proof.
  assert (~ (minInt64 <= 2 ^ 63 < 2 ^ 63)) as H by (unfold minInt64; lia).
  split; [exact H|]. split; [reflexivity|].
  destruct (stored_numbers_in_range
              (request EmptyString "The Raven" "E. A. Poe"
                 "9223372036854775808 pages" "e" "1845") "7")
    as (_ & _ & _ & Hlarge).
  destruct (Hlarge (2 ^ 63) " pages"%string H eq_refl) as [Hpages _].
  apply Hpages. reflexivity.
Defined.

(* ================================================================== *)
(** ** The allocator over several calls                                *)
(* ================================================================== *)

Lemma getNextID_fallback coll idCounter :
  docs coll = [] \/ reachable coll = false ->
  getNextID coll idCounter = (FormatInt idCounter, wrap64 (idCounter + 1)).
Proof.
  intros [Hd|Hr]; [now apply getNextID_empty|now apply getNextID_unreachable].
Qed.

Lemma allocate_fallback coll n :
  docs coll = [] \/ reachable coll = false ->
  forall idCounter,
    - 2 ^ 63 <= idCounter -> idCounter + Z.of_nat n < 2 ^ 63 ->
    allocate coll idCounter n
    = (List.map (fun k => FormatInt (idCounter + Z.of_nat k)) (seq 0 n),
       idCounter + Z.of_nat n).
Proof.
  intros Hc. induction n as [|n IH]; intros idCounter Hlo Hhi.
  - simpl. now rewrite Z.add_0_r.
  - cbn [allocate]. rewrite (getNextID_fallback coll idCounter Hc).
    rewrite wrap64_id by lia. rewrite IH by lia.
    cbn [seq List.map]. rewrite Z.add_0_r. f_equal; [|lia].
    f_equal. rewrite <- seq_shift, List.map_map.
    apply List.map_ext. intros k. f_equal. lia.
Qed.

Lemma NoDup_map_FormatInt (l : list Z) :
  List.NoDup l -> List.NoDup (List.map FormatInt l).
Proof.
  intros H. apply Finite.Injective_map_NoDup; [|exact H].
  intros x y. apply FormatInt_inj.
Qed.

(** X4. While the store is empty (or does not answer), [n] calls of the
    allocator hand out the decimal renderings of the counter, the
    counter plus one, and so on: [n] pairwise different identifiers,
    and the counter ends [n] higher. *)
Theorem allocate_counts_up coll idCounter n :
  docs coll = [] \/ reachable coll = false ->
  minInt64 <= idCounter -> idCounter + Z.of_nat n < 2 ^ 63 ->
  allocate coll idCounter n
  = (List.map (fun k => FormatInt (idCounter + Z.of_nat k)) (seq 0 n),
     idCounter + Z.of_nat n) /\
  List.NoDup (fst (allocate coll idCounter n)).
Proof.
  intros Hc Hlo Hhi. unfold minInt64 in Hlo.
  rewrite (allocate_fallback coll n Hc idCounter Hlo Hhi). split; [reflexivity|].
  cbn [fst].
  rewrite <- (List.map_map (fun k => idCounter + Z.of_nat k) FormatInt).
  apply NoDup_map_FormatInt.
  apply Finite.Injective_map_NoDup; [|apply seq_NoDup].
  intros x y Hxy. lia.
Qed.

Lemma allocate_counts_up_witness :
  (docs emptyStore = [] \/ reachable emptyStore = false) /\
  minInt64 <= idCounter0 /\ idCounter0 + Z.of_nat 3 < 2 ^ 63 /\
  allocate emptyStore idCounter0 3
  = (["1000000"%string; "1000001"%string; "1000002"%string], 1000003).
Proof.
  assert (minInt64 <= idCounter0) as Hlo by (unfold minInt64, idCounter0; lia).
  assert (idCounter0 + Z.of_nat 3 < 2 ^ 63) as Hhi by (unfold idCounter0; lia).
  split; [now left|]. split; [exact Hlo|]. split; [exact Hhi|].
  exact (proj1 (allocate_counts_up emptyStore idCounter0 3 (or_introl eq_refl) Hlo Hhi)).
Defined.

Lemma getNextID_ignores_counter coll :
  reachable coll = true -> docs coll <> [] ->
  (forall x, In x (docs coll) -> ParseInt (ID x) <> None) ->
  forall c c', getNextID coll c = getNextID coll c'.
Proof.
  intros Hr Hne Hparse c c'.
  unfold getNextID, Aggregate. rewrite Hr.
  cbn [fold_left runStage]. rewrite match_id_exists.
  destruct (sortDesc_id_head (docs coll) Hne) as (r & rest & Hs & Hin & _).
  rewrite Hs. cbn [firstn].
  specialize (Hparse r Hin). destruct (ParseInt (ID r)); [reflexivity|now contradiction Hparse].
Qed.

(** X5. On a store that answers, is not empty and holds only identifiers
    that parse as integers, the allocator does not depend on the
    counter: every call overwrites it from the store.  Calls in a row,
    with nothing inserted in between, all return the same identifier. *)
Theorem allocate_repeats coll :
  reachable coll = true -> docs coll <> [] ->
  (forall x, In x (docs coll) -> ParseInt (ID x) <> None) ->
  exists id,
    forall idCounter n, fst (allocate coll idCounter n) = repeat id n.
Proof.
  intros Hr Hne Hparse. exists (fst (getNextID coll 0)).
  intros idCounter n. revert idCounter.
  induction n as [|n IH]; intros idCounter; [reflexivity|].
  cbn [allocate repeat].
  rewrite (getNextID_ignores_counter coll Hr Hne Hparse idCounter 0).
  destruct (getNextID coll 0) as [id c] eqn:Hg.
  specialize (IH c). destruct (allocate coll c n) as [rest c'].
  cbn [fst] in *. now rewrite IH.
Qed.

Lemma allocate_repeats_witness :
  reachable seeded = true /\ docs seeded <> [] /\
  fst (allocate seeded idCounter0 3)
  = ["1000003"%string; "1000003"%string; "1000003"%string].
Proof.
  split; [reflexivity|]. split; [discriminate|].
  destruct (allocate_repeats seeded eq_refl) as [id Hid].
  - discriminate.
  - intros x [<-|[<-|[]]]; discriminate.
  - pose proof (Hid idCounter0 1%nat) as H1. rewrite (Hid idCounter0 3%nat).
    vm_compute in H1. injection H1 as <-. reflexivity.
Defined.

(* ================================================================== *)
(** ** Identifiers of equal length                                     *)
(* ================================================================== *)

Lemma parseDigits_value s :
  forallb isDigit (list_ascii_of_string s) = true ->
  exists v,
    parseDigits 0 s = Some v /\ 0 <= v < 10 ^ Z.of_nat (String.length s) /\
    forall acc, parseDigits acc s = Some (acc * 10 ^ Z.of_nat (String.length s) + v).
Proof.
  induction s as [|c r IH]; intros Hd.
  - exists 0. simpl. repeat split; try lia. intros acc. f_equal. lia.
  - cbn [list_ascii_of_string forallb] in Hd. apply andb_true_iff in Hd as [Hc Hr].
    destruct (IH Hr) as (v & Hv & Hb & Hacc).
    pose proof (isDigit_bounds c Hc) as Hdv.
    assert (10 ^ Z.of_nat (String.length (String c r))
            = 10 * 10 ^ Z.of_nat (String.length r)) as Hpow.
    { cbn [String.length]. rewrite Nat2Z.inj_succ, Z.pow_succ_r by lia. reflexivity. }
    exists (digitVal c * 10 ^ Z.of_nat (String.length r) + v).
    rewrite Hpow. repeat split.
    + rewrite parseDigits_step by exact Hc. rewrite Hacc. f_equal.
    + nia.
    + nia.
    + intros acc. rewrite parseDigits_step by exact Hc. rewrite Hacc. f_equal. ring.
Qed.

(** On digit strings of one length the byte order of strings is the
    order of the numbers they denote. *)
Lemma leb_digits_numeric s :
  forall t vs vt,
    String.length s = String.length t ->
    forallb isDigit (list_ascii_of_string s) = true ->
    forallb isDigit (list_ascii_of_string t) = true ->
    parseDigits 0 s = Some vs -> parseDigits 0 t = Some vt ->
    String.leb s t = true -> vs <= vt.
Proof.
  induction s as [|c r IH]; intros [|d r'] vs vt Hlen Hs Ht Hvs Hvt Hle;
    try discriminate Hlen.
  - simpl in Hvs, Hvt. injection Hvs as <-. injection Hvt as <-. lia.
  - cbn [String.length] in Hlen. injection Hlen as Hlen.
    cbn [list_ascii_of_string forallb] in Hs, Ht.
    apply andb_true_iff in Hs as [Hc Hr]. apply andb_true_iff in Ht as [Hd Hr'].
    destruct (parseDigits_value r Hr) as (v & Hv & Hb & Hacc).
    destruct (parseDigits_value r' Hr') as (v' & Hv' & Hb' & Hacc').
    rewrite parseDigits_step, Hacc in Hvs by exact Hc.
    rewrite parseDigits_step, Hacc' in Hvt by exact Hd.
    injection Hvs as <-. injection Hvt as <-. rewrite <- Hlen in *.
    pose proof (isDigit_bounds c Hc) as Hdc. pose proof (isDigit_bounds d Hd) as Hdd.
    unfold String.leb in Hle. cbn [String.compare] in Hle.
    unfold Ascii.compare in Hle.
    destruct (N.compare (N_of_ascii c) (N_of_ascii d)) eqn:Hcmp.
    + apply N.compare_eq in Hcmp.
      assert (digitVal c = digitVal d) as -> by (unfold digitVal, byte; now rewrite Hcmp).
      assert (v <= v'); [|lia].
      apply (IH r' v v' Hlen Hr Hr' Hv Hv'). exact Hle.
    + assert (N_of_ascii c < N_of_ascii d)%N as Hlt
          by (apply N.compare_lt_iff; exact Hcmp).
      assert (digitVal c + 1 <= digitVal d) by (unfold digitVal, byte; lia).
      nia.
    + discriminate Hle.
Qed.

Lemma digitString_ParseInt n s :
  (1 <= n <= 18)%nat -> digitString n s = true ->
  exists v, ParseInt s = Some v /\ parseDigits 0 s = Some v /\ 0 <= v < 10 ^ 18.
Proof.
  intros Hn Hs. unfold digitString in Hs. apply andb_true_iff in Hs as [Hlen Hd].
  apply Nat.eqb_eq in Hlen.
  destruct (parseDigits_value s Hd) as (v & Hv & Hb & _).
  assert (0 <= v < 10 ^ 18) as Hv18.
  { split; [lia|]. eapply Z.lt_le_trans; [apply Hb|].
    apply Z.pow_le_mono_r; lia. }
  exists v. repeat split; try lia; [|exact Hv].
  destruct s as [|c r]; [simpl in Hlen; lia|].
  cbn [list_ascii_of_string forallb] in Hd. apply andb_true_iff in Hd as [Hc _].
  destruct (isDigit_not_sign c Hc) as [Hplus Hminus].
  unfold ParseInt. rewrite Hplus, Hminus. unfold parseUint. rewrite Hv.
  cbn [negb andb]. destruct (2 ^ 63 <=? v) eqn:E; [apply Z.leb_le in E; lia|reflexivity].
Qed.

Lemma getNextID_equal_length coll idCounter n :
  reachable coll = true -> docs coll <> [] -> (1 <= n <= 18)%nat ->
  (forall x, In x (docs coll) -> digitString n (ID x) = true) ->
  exists v,
    (exists r, In r (docs coll) /\ ParseInt (ID r) = Some v) /\
    (forall x, In x (docs coll) -> exists w, ParseInt (ID x) = Some w /\ w <= v) /\
    getNextID coll idCounter = (FormatInt (v + 1), v + 2) /\
    ~ In (FormatInt (v + 1)) (ids coll).
Proof.
  intros Hr Hne Hn Hdig.
  destruct (getNextID_string_maximum coll idCounter Hr Hne) as (r & Hin & Hmax & Hget).
  destruct (digitString_ParseInt n (ID r) Hn (Hdig r Hin)) as (v & Hpv & Hdv & Hbv).
  assert (forall x, In x (docs coll) -> exists w, ParseInt (ID x) = Some w /\ w <= v) as Hall.
  { intros x Hx.
    destruct (digitString_ParseInt n (ID x) Hn (Hdig x Hx)) as (w & Hpw & Hdw & _).
    exists w. split; [exact Hpw|].
    pose proof (Hdig x Hx) as Hx'. pose proof (Hdig r Hin) as Hr'.
    unfold digitString in Hx', Hr'.
    apply andb_true_iff in Hx' as [Hlx Hdx]. apply andb_true_iff in Hr' as [Hlr Hdr].
    apply Nat.eqb_eq in Hlx, Hlr.
    apply (leb_digits_numeric (ID x) (ID r) w v); try assumption; [congruence|].
    now apply Hmax. }
  exists v. split; [now exists r|]. split; [exact Hall|]. split.
  - rewrite Hget, Hpv. rewrite !wrap64_id by lia. f_equal. lia.
  - intros Hin'. apply in_map_iff in Hin' as (x & Hx & Hxin).
    destruct (Hall x Hxin) as (w & Hw & Hle).
    rewrite Hx, ParseInt_FormatInt in Hw by lia. injection Hw as <-. lia.
Qed.

(** X6. On a store that answers, is not empty and whose identifiers are
    all strings of one and the same number of decimal digits (at most
    18), the allocator returns the numerically largest identifier plus
    one, and that identifier is not in the store. *)
Theorem getNextID_fresh_on_equal_length coll idCounter n :
  reachable coll = true -> docs coll <> [] -> (1 <= n <= 18)%nat ->
  (forall x, In x (docs coll) -> digitString n (ID x) = true) ->
  exists v,
    (exists r, In r (docs coll) /\ ParseInt (ID r) = Some v) /\
    (forall x, In x (docs coll) -> exists w, ParseInt (ID x) = Some w /\ w <= v) /\
    getNextID coll idCounter = (FormatInt (v + 1), v + 2) /\
    ~ In (FormatInt (v + 1)) (ids coll).
Proof. apply getNextID_equal_length. Qed.

Lemma getNextID_fresh_on_equal_length_witness :
  reachable seeded = true /\ docs seeded <> [] /\ (1 <= 7 <= 18)%nat /\
  getNextID seeded idCounter0 = ("1000003"%string, 1000004) /\
  ~ In "1000003"%string (ids seeded).
Proof.
  split; [reflexivity|]. split; [discriminate|]. split; [lia|].
  destruct (getNextID_fresh_on_equal_length seeded idCounter0 7 eq_refl)
    as (v & _ & _ & Hget & Hfresh).
  - discriminate.
  - lia.
  - intros x [<-|[<-|[]]]; reflexivity.
  - assert (v = 1000002) as ->.
    { assert (fst (getNextID seeded idCounter0) = "1000003"%string) as H by reflexivity.
      rewrite Hget in H. cbn [fst] in H.
      assert (v + 1 = 1000003) by (apply FormatInt_inj; exact H). lia. }
    split; [exact Hget|exact Hfresh].
Defined.

(* ================================================================== *)
(** ** Lookup by identifier, and writes followed by a lookup           *)
(* ================================================================== *)

Lemma find_first_match (p : BookStore -> bool) pre b suf :
  (forall x, In x pre -> p x = false) -> p b = true ->
  List.find p (pre ++ b :: suf) = Some b.
Proof.
  induction pre as [|x pre IH]; intros Hno Hb; simpl.
  - now rewrite Hb.
  - rewrite (Hno x (or_introl eq_refl)). apply IH; [|exact Hb].
    intros y Hy. apply Hno. now right.
Qed.

Lemma find_no_match (p : BookStore -> bool) l :
  (forall x, In x l -> p x = false) -> List.find p l = None.
Proof.
  induction l as [|x l IH]; intros Hno; simpl; [reflexivity|].
  rewrite (Hno x (or_introl eq_refl)). apply IH. intros y Hy. apply Hno. now right.
Qed.

Lemma getBookByID_unreachable coll id :
  reachable coll = false -> getBookByID coll id = Err errDriver.
Proof. intros Hr. unfold getBookByID, FindOne. now rewrite Hr. Qed.

Lemma getBookByID_absent coll id :
  reachable coll = true -> ~ In id (ids coll) ->
  getBookByID coll id = Err errNoDocuments.
Proof.
  intros Hr Hnot. unfold getBookByID, FindOne. rewrite Hr.
  rewrite (find_no_match (matches (idFilter id))); [reflexivity|].
  now apply idFilter_false_iff.
Qed.

Lemma getBookByID_present coll id pre b suf :
  reachable coll = true ->
  docs coll = pre ++ b :: suf -> ID b = id -> ~ In id (List.map ID pre) ->
  getBookByID coll id = Ok (bookMapByID b).
Proof.
  intros Hr Hd Hb Hpre. unfold getBookByID, FindOne. rewrite Hr, Hd.
  fold (idFilter id).
  rewrite (find_first_match (matches (idFilter id)) pre b suf); [reflexivity| |].
  - now apply idFilter_false_iff.
  - now apply matches_id_true.
Qed.

(** X7. [getBookByID] answers with the six fields of the first record
    that carries the identifier; it answers the driver's "no documents"
    error when the store answers and holds no such record, and the
    driver's error when the store does not answer. *)
Theorem getBookByID_first_match coll id :
  (reachable coll = false -> getBookByID coll id = Err errDriver) /\
  (reachable coll = true -> ~ In id (ids coll) ->
     getBookByID coll id = Err errNoDocuments) /\
  (reachable coll = true -> In id (ids coll) ->
     exists pre b suf,
       docs coll = pre ++ b :: suf /\ ID b = id /\ ~ In id (List.map ID pre) /\
       getBookByID coll id = Ok (bookMapByID b) /\
       bookMapByID b !! "ID"%string = Some (VString id) /\
       bookMapByID b !! "BookName"%string = Some (VString (BookName b)) /\
       bookMapByID b !! "BookAuthor"%string = Some (VString (BookAuthor b)) /\
       bookMapByID b !! "BookISBN"%string = Some (VString (BookISBN b)) /\
       bookMapByID b !! "BookPages"%string = Some (VInt (BookPages b)) /\
       bookMapByID b !! "BookYear"%string = Some (VInt (BookYear b))).
Proof.
  split; [apply getBookByID_unreachable|]. split; [apply getBookByID_absent|].
  intros Hr Hin.
  destruct (split_at_id id (docs coll) Hin) as (pre & b & suf & Hd & Hb & Hpre).
  exists pre, b, suf. split; [exact Hd|]. split; [exact Hb|]. split; [exact Hpre|].
  split; [now apply (getBookByID_present coll id pre b suf)|].
  rewrite <- Hb. repeat split; reflexivity.
Qed.

Lemma getBookByID_first_match_witness :
  reachable twins = true /\ In "1"%string (ids twins) /\
  getBookByID twins "1" = Ok (bookMapByID (book "1" "T1" "A" "e" 1 2000)).
Proof.
  split; [reflexivity|]. split; [now left|].
  destruct (getBookByID_first_match twins "1") as (_ & _ & Hpresent).
  destruct (Hpresent eq_refl) as (pre & b & suf & Hd & Hb & Hpre & Hget & _).
  - now left.
  - rewrite Hget. destruct pre as [|x pre].
    + simpl in Hd. injection Hd as <- _. reflexivity.
    + exfalso. apply Hpre. simpl in Hd. injection Hd as <- _. now left.
Defined.

(** X8. A create request that names an identifier: when the store
    answers, holds no record with these five fields and does not hold
    the identifier, the create succeeds and a lookup of the identifier
    returns the record just written; when the store already holds the
    identifier, the create still succeeds but the lookup goes on
    returning what it returned before. *)
Theorem create_then_get coll idCounter bookReq :
  reachable coll = true ->
  Request.ID bookReq <> EmptyString ->
  ~ (exists b, In b (docs coll) /\ sameFields b (newBook bookReq (Request.ID bookReq))) ->
  exists coll',
    createBook coll idCounter bookReq = (None, coll', idCounter) /\
    (~ In (Request.ID bookReq) (ids coll) ->
       getBookByID coll' (Request.ID bookReq)
       = Ok (bookMapByID (newBook bookReq (Request.ID bookReq)))) /\
    (In (Request.ID bookReq) (ids coll) ->
       getBookByID coll' (Request.ID bookReq) = getBookByID coll (Request.ID bookReq)).
Proof.
  intros Hr Hid Hfresh.
  assert (writtenID coll idCounter bookReq = Request.ID bookReq) as Hw.
  { unfold writtenID. apply String.eqb_neq in Hid. now rewrite Hid. }
  assert (counterAfter coll idCounter bookReq = idCounter) as Hc.
  { unfold counterAfter. apply String.eqb_neq in Hid. now rewrite Hid. }
  pose proof (createBook_fresh coll idCounter bookReq Hr) as Hcreate.
  rewrite Hw, Hc in Hcreate. specialize (Hcreate Hfresh).
  eexists. split; [exact Hcreate|]. split.
  - intros Hnot.
    apply (getBookByID_present _ _ (docs coll) (newBook bookReq (Request.ID bookReq)) []);
      [exact Hr|reflexivity|reflexivity|exact Hnot].
  - intros Hin.
    destruct (split_at_id _ (docs coll) Hin) as (pre & b & suf & Hd & Hb & Hpre).
    rewrite (getBookByID_present coll _ pre b suf Hr Hd Hb Hpre).
    apply (getBookByID_present _ _ pre b
             (suf ++ [newBook bookReq (Request.ID bookReq)]));
      [exact Hr| |exact Hb|exact Hpre].
    simpl. rewrite Hd, <- app_assoc. reflexivity.
Qed.

Lemma create_then_get_witness :
  reachable seeded = true /\
  getBookByID
    (snd (fst (createBook seeded idCounter0
                 (request "77" "The Raven" "E. A. Poe" "8" "e" "1845")))) "77"
  = Ok (bookMapByID (book "77" "The Raven" "E. A. Poe" "e" 8 1845)).
Proof.
  split; [reflexivity|].
  destruct (create_then_get seeded idCounter0
              (request "77" "The Raven" "E. A. Poe" "8" "e" "1845") eq_refl)
    as (coll' & Hc & Hget & _).
  - discriminate.
  - intros (b & [<-|[<-|[]]] & Hs); destruct Hs as [Hs _]; discriminate Hs.
  - rewrite Hc. cbn [fst snd]. apply Hget.
    intros [H|[H|[]]]; discriminate H.
Defined.

(** X9. After an update that succeeded, a lookup of the same identifier
    returns the identifier together with the five fields of the update
    request. *)
Theorem update_then_get coll id bookReq coll' :
  updateBook coll id bookReq = (None, coll') ->
  getBookByID coll' id = Ok (bookMapByID (newBook bookReq id)).
Proof.
  intros Hu. destruct (reachable coll) eqn:Hr.
  - destruct (in_dec string_dec id (ids coll)) as [Hin|Hnot].
    + destruct (split_at_id id (docs coll) Hin) as (pre & b & suf & Hd & Hb & Hpre).
      rewrite (updateBook_present coll id bookReq pre b suf Hr Hd Hb Hpre) in Hu.
      injection Hu as <-.
      apply (getBookByID_present _ id pre (newBook bookReq id) suf);
        [exact Hr|reflexivity|reflexivity|exact Hpre].
    + rewrite (updateBook_absent coll id bookReq Hr Hnot) in Hu. discriminate Hu.
  - rewrite (updateBook_unreachable coll id bookReq Hr) in Hu. discriminate Hu.
Qed.

Lemma update_then_get_witness :
  updateBook seeded "1000002" (request "7" "The Raven" "E. A. Poe" "x" EmptyString "1845")
  = (None, withDocs seeded [frankenstein; book "1000002" "The Raven" "E. A. Poe" EmptyString 0 1845])
  /\
  getBookByID
    (withDocs seeded [frankenstein; book "1000002" "The Raven" "E. A. Poe" EmptyString 0 1845])
    "1000002"
  = Ok (bookMapByID (book "1000002" "The Raven" "E. A. Poe" EmptyString 0 1845)).
Proof.
  split; [reflexivity|].
  exact (update_then_get seeded "1000002"
           (request "7" "The Raven" "E. A. Poe" "x" EmptyString "1845") _ eq_refl).
Defined.

(** X10. In a store whose identifiers are pairwise distinct, after a
    delete that succeeded a lookup of the same identifier finds
    nothing. *)
Theorem delete_then_get coll id coll' :
  List.NoDup (ids coll) ->
  deleteBook coll id = (None, coll') ->
  getBookByID coll' id = Err errNoDocuments.
Proof.
  intros Hnd Hdel. destruct (reachable coll) eqn:Hr.
  - destruct (in_dec string_dec id (ids coll)) as [Hin|Hnot].
    + destruct (split_at_id id (docs coll) Hin) as (pre & b & suf & Hd & Hb & Hpre).
      rewrite (deleteBook_present coll id pre b suf Hr Hd Hb Hpre) in Hdel.
      injection Hdel as <-. apply getBookByID_absent; [exact Hr|].
      unfold ids in *. simpl. rewrite Hd in Hnd.
      rewrite map_app in Hnd |- *. simpl in Hnd.
      apply NoDup_remove_2 in Hnd. now rewrite Hb in Hnd.
    + rewrite (deleteBook_absent coll id Hr Hnot) in Hdel. discriminate Hdel.
  - rewrite (deleteBook_unreachable coll id Hr) in Hdel. discriminate Hdel.
Qed.

Lemma delete_then_get_witness :
  List.NoDup (ids seeded) /\
  deleteBook seeded "1000001" = (None, withDocs seeded [blackCat]) /\
  getBookByID (withDocs seeded [blackCat]) "1000001" = Err errNoDocuments.
Proof.
  assert (List.NoDup (ids seeded)) as Hnd.
  { vm_compute. repeat constructor; simpl; intuition discriminate. }
  split; [exact Hnd|]. split; [reflexivity|].
  exact (delete_then_get seeded "1000001" _ Hnd eq_refl).
Defined.

(** X11. An update is idempotent: repeating a successful update with the
    same identifier and request succeeds again and leaves the store as
    the first update left it. *)
Theorem updateBook_idempotent coll id bookReq coll' :
  updateBook coll id bookReq = (None, coll') ->
  updateBook coll' id bookReq = (None, coll').
Proof.
  intros Hu. destruct (reachable coll) eqn:Hr.
  - destruct (in_dec string_dec id (ids coll)) as [Hin|Hnot].
    + destruct (split_at_id id (docs coll) Hin) as (pre & b & suf & Hd & Hb & Hpre).
      rewrite (updateBook_present coll id bookReq pre b suf Hr Hd Hb Hpre) in Hu.
      injection Hu as <-.
      rewrite (updateBook_present _ id bookReq pre (newBook bookReq id) suf);
        [reflexivity|exact Hr|reflexivity|reflexivity|exact Hpre].
    + rewrite (updateBook_absent coll id bookReq Hr Hnot) in Hu. discriminate Hu.
  - rewrite (updateBook_unreachable coll id bookReq Hr) in Hu. discriminate Hu.
Qed.

Lemma updateBook_idempotent_witness :
  updateBook seeded "1000002" (request "7" "The Raven" "E. A. Poe" "x" EmptyString "1845")
  = (None, withDocs seeded [frankenstein; book "1000002" "The Raven" "E. A. Poe" EmptyString 0 1845])
  /\
  updateBook
    (withDocs seeded [frankenstein; book "1000002" "The Raven" "E. A. Poe" EmptyString 0 1845])
    "1000002" (request "7" "The Raven" "E. A. Poe" "x" EmptyString "1845")
  = (None, withDocs seeded [frankenstein; book "1000002" "The Raven" "E. A. Poe" EmptyString 0 1845]).
Proof.
  split; [reflexivity|].
  exact (updateBook_idempotent seeded "1000002"
           (request "7" "The Raven" "E. A. Poe" "x" EmptyString "1845") _ eq_refl).
Defined.

(** X12. A write that reports an error has not touched the store:
    whenever [createBook], [updateBook] or [deleteBook] returns an
    error, the collection it returns is the collection it was given. *)
Theorem failed_write_changes_nothing coll :
  (forall idCounter bookReq err coll' idCounter',
     createBook coll idCounter bookReq = (Some err, coll', idCounter') -> coll' = coll) /\
  (forall id bookReq err coll',
     updateBook coll id bookReq = (Some err, coll') -> coll' = coll) /\
  (forall id err coll',
     deleteBook coll id = (Some err, coll') -> coll' = coll).
Proof.
  split; [|split].
  - intros idCounter bookReq err coll' idCounter' Hc.
    rewrite createBook_unfold in Hc. cbv zeta in Hc.
    destruct (bookExists coll _); [congruence|].
    destruct (InsertOne coll _); congruence.
  - intros id bookReq err coll' Hu. destruct (reachable coll) eqn:Hr.
    + destruct (in_dec string_dec id (ids coll)) as [Hin|Hnot].
      * destruct (split_at_id id (docs coll) Hin) as (pre & b & suf & Hd & Hb & Hpre).
        rewrite (updateBook_present coll id bookReq pre b suf Hr Hd Hb Hpre) in Hu.
        discriminate Hu.
      * rewrite (updateBook_absent coll id bookReq Hr Hnot) in Hu. congruence.
    + rewrite (updateBook_unreachable coll id bookReq Hr) in Hu. congruence.
  - intros id err coll' Hdel. destruct (reachable coll) eqn:Hr.
    + destruct (in_dec string_dec id (ids coll)) as [Hin|Hnot].
      * destruct (split_at_id id (docs coll) Hin) as (pre & b & suf & Hd & Hb & Hpre).
        rewrite (deleteBook_present coll id pre b suf Hr Hd Hb Hpre) in Hdel.
        discriminate Hdel.
      * rewrite (deleteBook_absent coll id Hr Hnot) in Hdel. congruence.
    + rewrite (deleteBook_unreachable coll id Hr) in Hdel. congruence.
Qed.

(* ================================================================== *)
(** ** The JSON handlers for create, update and lookup                 *)
(* ================================================================== *)

Lemma required_fields_present (bookReq : BookRequest) :
  Request.Title bookReq <> EmptyString -> Request.Author bookReq <> EmptyString ->
  String.eqb (Request.Title bookReq) EmptyString
  || String.eqb (Request.Author bookReq) EmptyString = false.
Proof.
  intros Ht Ha. apply String.eqb_neq in Ht, Ha. now rewrite Ht, Ha.
Qed.

Lemma required_fields_missing (bookReq : BookRequest) :
  Request.Title bookReq = EmptyString \/ Request.Author bookReq = EmptyString ->
  String.eqb (Request.Title bookReq) EmptyString
  || String.eqb (Request.Author bookReq) EmptyString = true.
Proof.
  intros [H|H]; apply String.eqb_eq in H; rewrite H; [reflexivity|apply orb_true_r].
Qed.

(** X13. [POST /api/books] answers 400 and touches neither the store nor
    the counter when the body cannot be bound or the title or the
    author is empty.  For a request with both, it answers 500 when the
    store does not answer and 409 when a record with the same five
    fields exists, leaving the store as it was in both cases, and 201
    otherwise, the candidate being the new last record. *)
Theorem createHandler_statuses coll idCounter :
  createHandler coll idCounter None
  = ({| status := StatusBadRequest;
        payload := JSON {[ "error"%string := "Invalid request body"%string ]} |},
     coll, idCounter) /\
  (forall bookReq,
     Request.Title bookReq = EmptyString \/ Request.Author bookReq = EmptyString ->
     createHandler coll idCounter (Some bookReq)
     = ({| status := StatusBadRequest;
           payload := JSON {[ "error"%string := "Title and author are required"%string ]} |},
        coll, idCounter)) /\
  (forall bookReq,
     Request.Title bookReq <> EmptyString -> Request.Author bookReq <> EmptyString ->
     let book := newBook bookReq (writtenID coll idCounter bookReq) in
     let out := createHandler coll idCounter (Some bookReq) in
     (reachable coll = false ->
        fst (fst out)
        = {| status := StatusInternalServerError;
             payload := JSON {[ "error"%string := "Failed to create book"%string ]} |}
        /\ snd (fst out) = coll) /\
     (reachable coll = true ->
      (exists b, In b (docs coll) /\ sameFields b book) ->
        fst (fst out)
        = {| status := StatusConflict;
             payload := JSON {[ "error"%string := "Book already exists"%string ]} |}
        /\ snd (fst out) = coll) /\
     (reachable coll = true ->
      ~ (exists b, In b (docs coll) /\ sameFields b book) ->
        fst (fst out)
        = {| status := StatusCreated;
             payload := JSON {[ "message"%string := "Book created successfully"%string ]} |}
        /\ docs (snd (fst out)) = docs coll ++ [book])).
Proof.
  split; [reflexivity|]. split.
  - intros bookReq Hmiss. unfold createHandler.
    now rewrite (required_fields_missing bookReq Hmiss).
  - intros bookReq Ht Ha book out. subst out. unfold createHandler.
    rewrite (required_fields_present bookReq Ht Ha).
    split; [|split].
    + intros Hr. now rewrite (createBook_unreachable coll idCounter bookReq Hr).
    + intros Hr Hdup. now rewrite (createBook_duplicate coll idCounter bookReq Hr Hdup).
    + intros Hr Hfresh. now rewrite (createBook_fresh coll idCounter bookReq Hr Hfresh).
Qed.

(** X14. [PUT /api/books/:id] answers 400 and leaves the store alone
    when the body cannot be bound or the title or the author is empty.
    For a request with both, it answers 500 when the store does not
    answer, 404 when the store holds no record with the identifier of
    the path, and 200 otherwise; the identifier in the body plays no
    part. *)
Theorem updateHandler_statuses coll id :
  updateHandler coll id None
  = ({| status := StatusBadRequest;
        payload := JSON {[ "error"%string := "Invalid request body"%string ]} |}, coll) /\
  (forall bookReq,
     Request.Title bookReq = EmptyString \/ Request.Author bookReq = EmptyString ->
     updateHandler coll id (Some bookReq)
     = ({| status := StatusBadRequest;
           payload := JSON {[ "error"%string := "Title and author are required"%string ]} |},
        coll)) /\
  (forall bookReq,
     Request.Title bookReq <> EmptyString -> Request.Author bookReq <> EmptyString ->
     (reachable coll = false ->
        updateHandler coll id (Some bookReq)
        = ({| status := StatusInternalServerError;
              payload := JSON {[ "error"%string := "Failed to update book"%string ]} |},
           coll)) /\
     (reachable coll = true -> ~ In id (ids coll) ->
        updateHandler coll id (Some bookReq)
        = ({| status := StatusNotFound;
              payload := JSON {[ "error"%string := "Book not found"%string ]} |}, coll)) /\
     (reachable coll = true -> In id (ids coll) ->
        updateHandler coll id (Some bookReq)
        = ({| status := StatusOK;
              payload := JSON {[ "message"%string := "Book updated successfully"%string ]} |},
           snd (updateBook coll id bookReq))
        /\ getBookByID (snd (updateBook coll id bookReq)) id
           = Ok (bookMapByID (newBook bookReq id)))) /\
  (forall bookReq bookReq',
     Request.Title bookReq' = Request.Title bookReq ->
     Request.Author bookReq' = Request.Author bookReq ->
     Request.Pages bookReq' = Request.Pages bookReq ->
     Request.Edition bookReq' = Request.Edition bookReq ->
     Request.Year bookReq' = Request.Year bookReq ->
     updateHandler coll id (Some bookReq') = updateHandler coll id (Some bookReq)).
Proof.
  split; [reflexivity|]. split; [|split].
  - intros bookReq Hmiss. unfold updateHandler.
    now rewrite (required_fields_missing bookReq Hmiss).
  - intros bookReq Ht Ha. unfold updateHandler.
    rewrite (required_fields_present bookReq Ht Ha).
    split; [|split].
    + intros Hr. now rewrite (updateBook_unreachable coll id bookReq Hr).
    + intros Hr Hnot. now rewrite (updateBook_absent coll id bookReq Hr Hnot).
    + intros Hr Hin.
      destruct (split_at_id id (docs coll) Hin) as (pre & b & suf & Hd & Hb & Hpre).
      rewrite (updateBook_present coll id bookReq pre b suf Hr Hd Hb Hpre).
      split; [reflexivity|]. cbn [snd].
      apply (getBookByID_present _ id pre (newBook bookReq id) suf);
        [exact Hr|reflexivity|reflexivity|exact Hpre].
  - intros bookReq bookReq' Ht Ha Hp He Hy. unfold updateHandler, updateBook.
    now rewrite Ht, Ha, Hp, He, Hy.
Qed.

(** X15. [GET /api/books/:id] answers 200 with the six fields of the
    first record that carries the identifier, and 404 "Book not found"
    both when there is no such record and when the store does not
    answer. *)
Theorem getBookHandler_statuses coll id :
  (reachable coll = false \/ ~ In id (ids coll) ->
     getBookHandler coll id
     = {| code := StatusNotFound;
          json := JMessage {[ "error"%string := "Book not found"%string ]} |}) /\
  (reachable coll = true -> In id (ids coll) ->
     exists pre b suf,
       docs coll = pre ++ b :: suf /\ ID b = id /\ ~ In id (List.map ID pre) /\
       getBookHandler coll id = {| code := StatusOK; json := JBook (bookMapByID b) |}).
Proof.
  split.
  - intros Hcase. unfold getBookHandler. destruct (reachable coll) eqn:Hr.
    + destruct Hcase as [Hf|Hnot]; [discriminate Hf|].
      now rewrite (getBookByID_absent coll id Hr Hnot).
    + now rewrite (getBookByID_unreachable coll id Hr).
  - intros Hr Hin.
    destruct (split_at_id id (docs coll) Hin) as (pre & b & suf & Hd & Hb & Hpre).
    exists pre, b, suf. repeat split; try assumption.
    unfold getBookHandler.
    now rewrite (getBookByID_present coll id pre b suf Hr Hd Hb Hpre).
Qed.

(* ================================================================== *)
(** ** Grouping by year                                                *)
(* ================================================================== *)

Lemma yearStep_skip m res : qualifies res = false -> yearStep m res = m.
Proof.
  unfold qualifies, yearStep. intros Hq.
  destruct (String.eqb (BookISBN res) EmptyString), (String.eqb (BookName res) EmptyString);
    simpl in *; congruence.
Qed.

Lemma yearStep_keep m res :
  qualifies res = true ->
  yearStep m res
  = <[FormatInt (BookYear res) :=
        default [] (m !! FormatInt (BookYear res)) ++ [BookName res]]> m.
Proof.
  unfold qualifies, yearStep. intros Hq.
  destruct (String.eqb (BookISBN res) EmptyString), (String.eqb (BookName res) EmptyString);
    simpl in *; congruence.
Qed.

Lemma yearBucket_cons year res l :
  yearBucket year (res :: l)
  = if qualifies res && String.eqb (FormatInt (BookYear res)) year
    then BookName res :: yearBucket year l
    else yearBucket year l.
Proof.
  unfold yearBucket. simpl.
  now destruct (qualifies res && String.eqb (FormatInt (BookYear res)) year).
Qed.

Lemma fold_yearStep_lookup l :
  forall (m : gmap string (list string)) year,
    fold_left yearStep l m !! year
    = match yearBucket year l with
      | [] => m !! year
      | titles => Some (default [] (m !! year) ++ titles)
      end.
Proof.
  induction l as [|res l IH]; intros m year; [reflexivity|].
  simpl fold_left. rewrite IH, yearBucket_cons.
  destruct (qualifies res) eqn:Hq.
  - rewrite (yearStep_keep m res Hq). simpl andb.
    destruct (String.eqb (FormatInt (BookYear res)) year) eqn:Hy.
    + apply String.eqb_eq in Hy. subst year.
      rewrite lookup_insert_eq. simpl default.
      destruct (yearBucket (FormatInt (BookYear res)) l) as [|t ts]; [reflexivity|].
      now rewrite <- app_assoc.
    + apply String.eqb_neq in Hy. now rewrite lookup_insert_ne.
  - now rewrite (yearStep_skip m res Hq).
Qed.

Lemma yearBooksOf_Some l year titles :
  yearBooksOf l !! year = Some titles
  <-> yearBucket year l <> [] /\ titles = yearBucket year l.
Proof.
  unfold yearBooksOf. rewrite fold_yearStep_lookup, lookup_empty.
  destruct (yearBucket year l) as [|t ts].
  - split; [discriminate|]. intros [H _]. now contradiction H.
  - split.
    + intros [= <-]. split; [discriminate|reflexivity].
    + intros [_ ->]. reflexivity.
Qed.

Lemma yearBucket_number y l :
  yearBucket (FormatInt y) l
  = List.map BookName (List.filter (fun res => qualifies res && (BookYear res =? y)) l).
Proof.
  unfold yearBucket. f_equal. apply filter_ext. intros res. f_equal.
  destruct (BookYear res =? y) eqn:E.
  - apply Z.eqb_eq in E. subst y. apply String.eqb_refl.
  - apply String.eqb_neq. intros H. apply FormatInt_inj in H.
    apply Z.eqb_neq in E. contradiction.
Qed.

Lemma yearBucket_nonempty year l :
  yearBucket year l <> [] -> exists y, year = FormatInt y.
Proof.
  induction l as [|res l IH]; [intros H; now contradiction H|].
  rewrite yearBucket_cons.
  destruct (qualifies res && String.eqb (FormatInt (BookYear res)) year) eqn:E.
  - intros _. apply andb_true_iff in E as [_ E]. apply String.eqb_eq in E.
    now exists (BookYear res).
  - exact IH.
Qed.

Lemma yearMap_inj e1 e2 : yearMap e1 = yearMap e2 -> e1 = e2.
Proof.
  destruct e1 as [a1 t1], e2 as [a2 t2]. unfold yearMap. simpl. intros H.
  pose proof (f_equal (fun m : gmap string value => m !! "BookYear"%string) H) as Ha.
  pose proof (f_equal (fun m : gmap string value => m !! "BookName"%string) H) as Ht.
  cbv beta in Ha, Ht.
  rewrite !lookup_insert_eq in Ha.
  do 2 (rewrite lookup_insert_ne, lookup_insert_eq in Ht by discriminate).
  congruence.
Qed.

(** X16. On a store that answers, [getYears] returns one row per year
    that has at least one record with a non-empty title and a non-empty
    ISBN.  The row is the map with the year in decimal under "BookYear"
    and, under "BookName", the titles of exactly those records of that
    year, in scan order; records of different years never share a
    row. *)
Theorem getYears_buckets coll :
  reachable coll = true ->
  exists rows,
    getYears coll = Some rows /\
    List.NoDup rows /\
    forall row, In row rows <->
      exists y : Z,
        let titles :=
          List.map BookName
            (List.filter (fun res => qualifies res && (BookYear res =? y)) (docs coll)) in
        titles <> [] /\
        row = <["BookYear"%string := VString (FormatInt y)]>
              (<["BookName"%string := VStrings titles]> ∅).
Proof.
  intros Hr. unfold getYears, Find. rewrite Hr, filter_emptyFilter.
  eexists. split; [reflexivity|]. split.
  - apply NoDup_ListNoDup. apply NoDup_fmap_2; [exact yearMap_inj|].
    apply NoDup_map_to_list.
  - intros row. rewrite in_map_iff. cbv zeta. split.
    + intros ([year titles] & <- & Hin).
      apply list_elem_of_In, elem_of_map_to_list, yearBooksOf_Some in Hin as [Hne ->].
      destruct (yearBucket_nonempty year (docs coll) Hne) as [y ->].
      exists y. rewrite <- yearBucket_number. now split.
    + intros (y & Hne & ->). rewrite <- yearBucket_number in *.
      exists (FormatInt y, yearBucket (FormatInt y) (docs coll)). split; [reflexivity|].
      apply list_elem_of_In, elem_of_map_to_list, yearBooksOf_Some. now split.
Qed.

Lemma getYears_buckets_witness :
  reachable seeded = true /\
  exists rows,
    getYears seeded = Some rows /\
    In (<["BookYear"%string := VString "1843"]>
        (<["BookName"%string := VStrings ["The Black Cat"%string]]> ∅)) rows.
Proof.
  split; [reflexivity|].
  destruct (getYears_buckets seeded eq_refl) as (rows & Hrows & _ & Hin).
  exists rows. split; [exact Hrows|].
  apply Hin. exists 1843. split; [discriminate|reflexivity].
Defined.

(* ================================================================== *)
(** ** Search: the case of the query                                   *)
(* ================================================================== *)

Lemma lowerASCII_bytes s : list_ascii_of_string (lowerASCII s) = foldCase s.
Proof.
  unfold foldCase. induction s as [|c r IH]; [reflexivity|].
  cbn [lowerASCII list_ascii_of_string List.map]. now rewrite IH.
Qed.

Lemma foldCase_lowerASCII q q' :
  foldCase q = foldCase q' -> lowerASCII q = lowerASCII q'.
Proof.
  intros Hf. rewrite <- !lowerASCII_bytes in Hf.
  apply (f_equal string_of_list_ascii) in Hf.
  now rewrite !string_of_list_ascii_of_string in Hf.
Qed.

(** Texts that are equal once their ASCII letters are lowered are equal
    character by character under the folding of any store. *)
Lemma foldText_foldCase coll q q' :
  foldCase q = foldCase q' ->
  foldText (caseFold coll) q = foldText (caseFold coll) q'.
Proof.
  intros Hf. apply foldCase_lowerASCII in Hf.
  unfold foldText, caseFold.
  rewrite <- !(List.map_map lowerASCII (foldBeyond coll)), <- !chars_lowerASCII.
  now rewrite Hf.
Qed.

(** X17. The case of a query does not matter: two non-empty queries
    without regular-expression metacharacters that are equal up to the
    case of ASCII letters get the same answer from the search
    handler. *)
Theorem search_ignores_case coll query query' :
  query <> EmptyString ->
  literalQuery query = true -> literalQuery query' = true ->
  foldCase query = foldCase query' ->
  searchHandler coll query = searchHandler coll query'.
Proof.
  intros Hne Hlit Hlit' Hf.
  assert (query' <> EmptyString) as Hne'.
  { intros ->. destruct query; [now contradiction Hne|discriminate Hf]. }
  unfold searchHandler.
  apply String.eqb_neq in Hne, Hne'. rewrite Hne, Hne'.
  rewrite (regexCompile_literal _ query Hlit), (regexCompile_literal _ query' Hlit').
  unfold Find. destruct (reachable coll); [|reflexivity].
  do 4 f_equal. apply filter_ext. intros b.
  rewrite !searchFilter_matches, !regexMatches_literal.
  unfold occursUpTob. now rewrite (foldText_foldCase coll query query' Hf).
Qed.

Lemma search_ignores_case_witness :
  "POE"%string <> EmptyString /\ literalQuery "POE" = true /\ literalQuery "poe" = true /\
  foldCase "POE" = foldCase "poe" /\
  searchHandler seeded "POE" = searchHandler seeded "poe".
Proof.
  split; [discriminate|]. split; [reflexivity|]. split; [reflexivity|].
  split; [reflexivity|].
  apply search_ignores_case; [discriminate|reflexivity|reflexivity|reflexivity].
Defined.

(* ================================================================== *)
(** ** Listing after a run of creates                                  *)
(* ================================================================== *)

Lemma rows_of_tuples l :
  forall reqs : list BookRequest,
    List.map tuple5 l = List.map reqTuple reqs ->
    List.map (fun row : gmap string value =>
                (row !! "BookName"%string, row !! "BookAuthor"%string,
                 row !! "BookISBN"%string, row !! "BookPages"%string))
             (List.map bookMapAll l)
    = List.map (fun bookReq =>
                  (Some (VString (Request.Title bookReq)),
                   Some (VString (Request.Author bookReq)),
                   Some (VString (Request.Edition bookReq)),
                   Some (VInt (scanOrZero (Request.Pages bookReq))))) reqs.
Proof.
  induction l as [|b l IH]; intros [|bookReq reqs] Ht; try discriminate Ht; [reflexivity|].
  simpl in Ht. injection Ht as Hn Ha Hy Hp Hi Hl.
  cbn [List.map]. rewrite (IH reqs Hl). f_equal.
  destruct (bookMapAll_keys b) as (_ & Kn & Ka & Ki & Kp & _).
  rewrite Kn, Ka, Ki, Kp, Hn, Ha, Hp, Hi. reflexivity.
Qed.

(** X18. Create requests with pairwise different field tuples, run one
    after the other on an empty store that answers, all succeed, and the
    listing then has one row per request, in the order of the requests,
    each with the title, author, edition and scanned pages of its
    request. *)
Theorem listing_after_creates coll idCounter (reqs : list BookRequest) :
  reachable coll = true -> docs coll = [] ->
  List.NoDup (List.map reqTuple reqs) ->
  exists coll' idCounter' rows,
    createAll coll idCounter reqs = (List.map (fun _ => None) reqs, coll', idCounter') /\
    findAllBooks coll' = Some rows /\
    List.map (fun row : gmap string value =>
                (row !! "BookName"%string, row !! "BookAuthor"%string,
                 row !! "BookISBN"%string, row !! "BookPages"%string)) rows
    = List.map (fun bookReq =>
                  (Some (VString (Request.Title bookReq)),
                   Some (VString (Request.Author bookReq)),
                   Some (VString (Request.Edition bookReq)),
                   Some (VInt (scanOrZero (Request.Pages bookReq))))) reqs.
Proof.
  intros Hr Hd Hnd.
  destruct (createAll_distinct reqs coll idCounter Hr) as (errs & coll' & c' & Hc & He & Hr' & Hd').
  - rewrite Hd. exact Hnd.
  - exists coll', c', (List.map bookMapAll (docs coll')).
    split; [now rewrite Hc, He|]. split; [now apply findAllBooks_rows|].
    apply rows_of_tuples. rewrite Hd', Hd. reflexivity.
Qed.

Lemma listing_after_creates_witness :
  reachable emptyStore = true /\ docs emptyStore = [] /\
  exists rows,
    findAllBooks (snd (fst (createAll emptyStore idCounter0 seedRequests))) = Some rows /\
    List.map (fun row : gmap string value => row !! "BookName"%string) rows
    = [Some (VString "Frankenstein"); Some (VString "The Black Cat")].
Proof.
  split; [reflexivity|]. split; [reflexivity|].
  destruct (listing_after_creates emptyStore idCounter0 seedRequests eq_refl eq_refl)
    as (coll' & c' & rows & Hc & Hf & Hrows).
  - vm_compute. repeat constructor; simpl; intuition discriminate.
  - exists rows. rewrite Hc. cbn [fst snd]. split; [exact Hf|].
    apply (f_equal (List.map (fun t : option value * option value * option value * option value
                               => fst (fst (fst t))))) in Hrows.
    rewrite !List.map_map in Hrows. cbn [fst] in Hrows. exact Hrows.
Defined.

(* ================================================================== *)
(** ** Seeding the collection at start-up                              *)
(* ================================================================== *)

Lemma structFilter_matches a b : matches (structFilter a) b = true <-> b = a.
Proof.
  destruct a as [i n au s p y], b as [i' n' au' s' p' y']. cbn.
  rewrite !andb_true_iff, !String.eqb_eq, !Z.eqb_eq. split.
  - intros (-> & -> & -> & -> & -> & -> & _). reflexivity.
  - intros [= -> -> -> -> -> ->]. repeat split.
Qed.

Lemma filter_structFilter_absent a l :
  ~ In a l -> List.filter (matches (structFilter a)) l = [].
Proof.
  induction l as [|x l IH]; intros Hnot; [reflexivity|]. cbn [List.filter].
  destruct (matches (structFilter a) x) eqn:Hm.
  - apply structFilter_matches in Hm. subst x. exfalso. apply Hnot. now left.
  - apply IH. intros Hin. apply Hnot. now right.
Qed.

Lemma filter_structFilter_In a l x :
  In x (List.filter (matches (structFilter a)) l) -> In a l.
Proof.
  intros Hin. apply filter_In in Hin as [Hin Hm].
  apply structFilter_matches in Hm. now subst x.
Qed.

(** When none of the books is in the store and the books are pairwise
    different, the loop inserts them all. *)
Lemma seedLoop_inserts_all books :
  forall coll,
    reachable coll = true ->
    List.NoDup books -> (forall s, In s books -> ~ In s (docs coll)) ->
    seedLoop coll books = Ready (withDocs coll (docs coll ++ books)).
Proof.
  induction books as [|b books IH]; intros coll Hr Hnd Hfresh.
  - simpl. now rewrite app_nil_r, withDocs_same.
  - cbn [seedLoop]. unfold Find, InsertOne. rewrite Hr.
    rewrite (filter_structFilter_absent b (docs coll)) by (apply Hfresh; now left).
    cbn [List.length Nat.ltb Nat.leb Nat.eqb].
    inversion Hnd as [|? ? Hb Hnd']; subst.
    rewrite IH; [| exact Hr | exact Hnd' |].
    + cbn [docs withDocs reachable]. now rewrite <- app_assoc.
    + intros s Hs Hin. cbn [docs withDocs] in Hin.
      apply in_app_or in Hin as [Hin|[<-|[]]].
      * apply (Hfresh s); [now right|exact Hin].
      * contradiction.
Qed.

(** What the loop guarantees whenever it returns. *)
Lemma seedLoop_ready books :
  forall coll coll',
    seedLoop coll books = Ready coll' ->
    exists added,
      docs coll' = docs coll ++ added /\
      (List.length added <= List.length books)%nat /\
      (forall b, In b added -> In b books) /\
      (forall s, In s books -> In s (docs coll')).
Proof.
  induction books as [|b books IH]; intros coll coll' Hs.
  - simpl in Hs. injection Hs as <-. exists []. rewrite app_nil_r.
    repeat split; [lia|intros ? []|intros ? []].
  - cbn [seedLoop] in Hs. unfold Find, InsertOne in Hs.
    destruct (reachable coll) eqn:Hr; [|discriminate Hs].
    destruct (List.filter (matches (structFilter b)) (docs coll)) as [|x [|x' rest]] eqn:Hf;
      cbn [List.length Nat.ltb Nat.leb Nat.eqb] in Hs; [| |discriminate Hs].
    + destruct (IH _ _ Hs) as (added & Hd & Hlen & Hsub & Hall).
      cbn [docs withDocs] in Hd.
      exists (b :: added). cbn [List.length].
      split; [rewrite Hd, <- app_assoc; reflexivity|].
      split; [lia|]. split.
      * intros y [<-|Hy]; [now left|right; now apply Hsub].
      * intros s [<-|Hs']; [|now apply Hall].
        rewrite Hd. apply in_or_app. left. apply in_or_app. right. now left.
    + destruct (IH _ _ Hs) as (added & Hd & Hlen & Hsub & Hall).
      exists added. cbn [List.length]. repeat split; [exact Hd|lia| |].
      * intros y Hy. right. now apply Hsub.
      * intros s [<-|Hs']; [|now apply Hall].
        rewrite Hd. apply in_or_app. left.
        apply (filter_structFilter_In b (docs coll) x). rewrite Hf. now left.
Qed.

Lemma startData_shape coll idCounter :
  exists id1 id2 id3,
    List.map ID (fst (startData coll idCounter)) = [id1; id2; id3] /\
    List.map BookName (fst (startData coll idCounter))
    = ["The Vortex"%string; "Frankenstein"%string; "The Black Cat"%string] /\
    id1 = fst (getNextID coll idCounter) /\
    id2 = fst (getNextID coll (snd (getNextID coll idCounter))) /\
    id3 = fst (getNextID coll (snd (getNextID coll (snd (getNextID coll idCounter))))) /\
    snd (startData coll idCounter)
    = snd (getNextID coll (snd (getNextID coll (snd (getNextID coll idCounter))))).
Proof.
  unfold startData.
  destruct (getNextID coll idCounter) as [id1 c1]. cbn [fst snd].
  destruct (getNextID coll c1) as [id2 c2]. cbn [fst snd].
  destruct (getNextID coll c2) as [id3 c3]. cbn [fst snd].
  exists id1, id2, id3. repeat split.
Qed.

Lemma NoDup_by_title (l : list BookStore) :
  List.NoDup (List.map BookName l) -> List.NoDup l.
Proof. apply NoDup_map_inv. Qed.

Lemma prepareData_unfold coll idCounter :
  prepareData coll idCounter
  = (seedLoop coll (fst (startData coll idCounter)), snd (startData coll idCounter)).
Proof. unfold prepareData. now destruct (startData coll idCounter). Qed.

Lemma seed_titles_NoDup :
  List.NoDup ["The Vortex"%string; "Frankenstein"%string; "The Black Cat"%string].
Proof. repeat constructor; simpl; intuition discriminate. Qed.

(** X19. First start: on an empty store that answers, [prepareData]
    returns with exactly the three seed records in the store, under
    three consecutive identifiers that begin at the counter, and leaves
    the counter three higher. *)
Theorem prepareData_first_start coll idCounter :
  reachable coll = true -> docs coll = [] ->
  minInt64 <= idCounter -> idCounter + 3 < 2 ^ 63 ->
  exists coll',
    prepareData coll idCounter = (Ready coll', idCounter + 3) /\
    List.map ID (docs coll')
    = [FormatInt idCounter; FormatInt (idCounter + 1); FormatInt (idCounter + 2)] /\
    List.map BookName (docs coll')
    = ["The Vortex"%string; "Frankenstein"%string; "The Black Cat"%string] /\
    List.NoDup (ids coll').
Proof.
  intros Hr Hd Hlo Hhi. unfold minInt64 in Hlo.
  assert (exists books,
            startData coll idCounter = (books, idCounter + 3) /\
            List.map ID books
            = [FormatInt idCounter; FormatInt (idCounter + 1); FormatInt (idCounter + 2)] /\
            List.map BookName books
            = ["The Vortex"%string; "Frankenstein"%string; "The Black Cat"%string])
    as (books & Hstart & Hids & Hnames).
  { unfold startData.
    rewrite (getNextID_empty coll idCounter Hd), (wrap64_id (idCounter + 1)) by lia.
    rewrite (getNextID_empty coll (idCounter + 1) Hd), (wrap64_id (idCounter + 1 + 1)) by lia.
    rewrite (getNextID_empty coll (idCounter + 1 + 1) Hd), (wrap64_id (idCounter + 1 + 1 + 1))
      by lia.
    eexists. split; [f_equal; lia|]. cbn [List.map ID BookName].
    split; [|reflexivity]. do 3 f_equal. f_equal. lia. }
  exists (withDocs coll books).
  rewrite prepareData_unfold, Hstart. cbn [fst snd].
  rewrite seedLoop_inserts_all; [rewrite Hd; cbn [app]| exact Hr | |].
  - split; [reflexivity|]. cbn [docs withDocs].
    split; [exact Hids|]. split; [exact Hnames|].
    unfold ids. cbn [docs withDocs]. rewrite Hids.
    change [FormatInt idCounter; FormatInt (idCounter + 1); FormatInt (idCounter + 2)]
      with (List.map FormatInt [idCounter; idCounter + 1; idCounter + 2]).
    apply NoDup_map_FormatInt. repeat constructor; simpl; lia.
  - apply NoDup_by_title. rewrite Hnames. exact seed_titles_NoDup.
  - intros s _. rewrite Hd. intros [].
Qed.

Lemma prepareData_first_start_witness :
  reachable emptyStore = true /\ docs emptyStore = [] /\
  minInt64 <= idCounter0 /\ idCounter0 + 3 < 2 ^ 63 /\
  exists coll',
    prepareData emptyStore idCounter0 = (Ready coll', 1000003) /\
    ids coll' = ["1000000"%string; "1000001"%string; "1000002"%string].
Proof.
  assert (minInt64 <= idCounter0) as Hlo by (unfold minInt64, idCounter0; lia).
  assert (idCounter0 + 3 < 2 ^ 63) as Hhi by (unfold idCounter0; lia).
  split; [reflexivity|]. split; [reflexivity|]. split; [exact Hlo|]. split; [exact Hhi|].
  destruct (prepareData_first_start emptyStore idCounter0 eq_refl eq_refl Hlo Hhi)
    as (coll' & Hp & Hids & _).
  exists coll'. split; [exact Hp|exact Hids].
Defined.

(** X20. Restart: on a store that answers, is not empty and whose
    identifiers are all strings of one and the same number of decimal
    digits (at most 18), the three identifiers of the seed records are
    drawn before anything is inserted, so all three are the same
    identifier; [prepareData] then finds none of the seeds, inserts all
    three again under that one identifier, and the identifiers of the
    store are no longer pairwise distinct. *)
Theorem prepareData_restart coll idCounter n :
  reachable coll = true -> docs coll <> [] -> (1 <= n <= 18)%nat ->
  (forall x, In x (docs coll) -> digitString n (ID x) = true) ->
  exists id books idCounter',
    prepareData coll idCounter = (Ready (withDocs coll (docs coll ++ books)), idCounter') /\
    List.map ID books = [id; id; id] /\
    List.map BookName books
    = ["The Vortex"%string; "Frankenstein"%string; "The Black Cat"%string] /\
    ~ In id (ids coll) /\
    ~ List.NoDup (ids (withDocs coll (docs coll ++ books))).
Proof.
  intros Hr Hne Hn Hdig.
  assert (forall x, In x (docs coll) -> ParseInt (ID x) <> None) as Hparse.
  { intros x Hx. destruct (digitString_ParseInt n (ID x) Hn (Hdig x Hx)) as (w & Hw & _).
    congruence. }
  destruct (getNextID_equal_length coll idCounter n Hr Hne Hn Hdig)
    as (v & _ & _ & Hget & Hfresh).
  assert (forall c, getNextID coll c = (FormatInt (v + 1), v + 2)) as Hall.
  { intros c. rewrite <- Hget. now apply getNextID_ignores_counter. }
  assert (exists books,
            startData coll idCounter = (books, v + 2) /\
            List.map ID books = [FormatInt (v + 1); FormatInt (v + 1); FormatInt (v + 1)] /\
            List.map BookName books
            = ["The Vortex"%string; "Frankenstein"%string; "The Black Cat"%string])
    as (books & Hstart & Hids & Hnames).
  { unfold startData. rewrite !Hall. eexists. repeat split. }
  exists (FormatInt (v + 1)), books, (v + 2).
  rewrite prepareData_unfold, Hstart. cbn [fst snd].
  rewrite seedLoop_inserts_all; [| exact Hr | |].
  - split; [reflexivity|]. split; [exact Hids|]. split; [exact Hnames|].
    split; [exact Hfresh|].
    unfold ids. cbn [docs withDocs]. rewrite map_app, Hids. intros Hnd.
    apply NoDup_app_remove_l in Hnd. inversion Hnd as [|? ? Hnot _]; subst.
    apply Hnot. now left.
  - apply NoDup_by_title. rewrite Hnames. exact seed_titles_NoDup.
  - intros s Hs Hin. apply Hfresh. apply in_map_iff. exists s. split; [|exact Hin].
    assert (In (ID s) (List.map ID books)) as Hid by (apply in_map; exact Hs).
    rewrite Hids in Hid. destruct Hid as [H|[H|[H|[]]]]; now symmetry.
Qed.

Lemma prepareData_restart_witness :
  reachable seeded = true /\ docs seeded <> [] /\ (1 <= 7 <= 18)%nat /\
  exists id books idCounter',
    prepareData seeded idCounter0
    = (Ready (withDocs seeded (docs seeded ++ books)), idCounter') /\
    List.map ID books = [id; id; id] /\
    ~ List.NoDup (ids (withDocs seeded (docs seeded ++ books))).
Proof.
  split; [reflexivity|]. split; [discriminate|]. split; [lia|].
  destruct (prepareData_restart seeded idCounter0 7 eq_refl)
    as (id & books & c' & Hp & Hids & _ & _ & Hdup).
  - discriminate.
  - lia.
  - intros x [<-|[<-|[]]]; reflexivity.
  - exists id, books, c'. split; [exact Hp|]. split; [exact Hids|exact Hdup].
Defined.

(** X21. [prepareData] panics when the store does not answer.  Whenever
    it returns, the records that were in the store are still there,
    unchanged and in place, followed by at most three new records, each
    of them a seed record; and every seed record, with the identifier
    drawn for it, is then in the store. *)
Theorem prepareData_only_appends coll idCounter :
  (reachable coll = false -> fst (prepareData coll idCounter) = Panicked) /\
  (forall coll' idCounter',
     prepareData coll idCounter = (Ready coll', idCounter') ->
     exists added,
       docs coll' = docs coll ++ added /\
       (List.length added <= 3)%nat /\
       (forall b, In b added -> In b (fst (startData coll idCounter))) /\
       (forall s, In s (fst (startData coll idCounter)) -> In s (docs coll'))).
Proof.
  destruct (startData_shape coll idCounter) as (id1 & id2 & id3 & Hids & _).
  assert (List.length (fst (startData coll idCounter)) = 3%nat) as Hlen.
  { rewrite <- (length_map ID), Hids. reflexivity. }
  rewrite prepareData_unfold. cbn [fst]. split.
  - intros Hr. destruct (fst (startData coll idCounter)) as [|b books]; [discriminate Hlen|].
    cbn [seedLoop]. unfold Find. now rewrite Hr.
  - intros coll' c' Hp. apply (f_equal fst) in Hp. cbn [fst] in Hp.
    destruct (seedLoop_ready _ _ _ Hp) as (added & Hd & Hl & Hsub & Hall).
    exists added. rewrite Hlen in Hl. repeat split; assumption.
Qed.

(* ================================================================== *)
(** ** Pages, the JSON list and a store that does not answer           *)
(* ================================================================== *)

(** X22. The three pages and the JSON list have no error path of their
    own: when the store does not answer, the repository function
    panics and so does the handler.  When it answers they all respond
    200; the page of books and the JSON list carry the same rows, one
    per record and in store order. *)
Theorem pages_need_the_store coll :
  (reachable coll = false ->
     booksPage coll = None /\ authorsPage coll = None /\
     yearsPage coll = None /\ listHandler coll = None) /\
  (reachable coll = true ->
     booksPage coll
     = Some {| status := 200;
               payload := Render "book-table" (List.map bookMapAll (docs coll)) |} /\
     listHandler coll
     = Some {| code := 200; json := JBooks (List.map bookMapAll (docs coll)) |} /\
     (exists authors,
        authorsPage coll = Some {| status := 200; payload := Render "author-table" authors |}) /\
     (exists years,
        yearsPage coll = Some {| status := 200; payload := Render "year-table" years |})).
Proof.
  split; intros Hr.
  - unfold booksPage, authorsPage, yearsPage, listHandler,
      findAllBooks, getAuthors, getYears, Find.
    rewrite Hr. repeat split.
  - unfold booksPage, listHandler. rewrite (findAllBooks_rows coll Hr).
    split; [reflexivity|]. split; [reflexivity|].
    unfold authorsPage, yearsPage, getAuthors, getYears, Find. rewrite Hr.
    split; eexists; reflexivity.
Qed.

(* ================================================================== *)
(** ** Create followed by another write                                *)
(* ================================================================== *)

(** X24. Once a create has succeeded, any later create with the same
    five fields, whatever its identifier and whatever the counter, is
    refused with "book already exists" and leaves the store alone. *)
Theorem create_twice_is_refused coll idCounter bookReq coll' idCounter' :
  createBook coll idCounter bookReq = (None, coll', idCounter') ->
  forall idCounter2 bookReq2,
    reqTuple bookReq2 = reqTuple bookReq ->
    fst (createBook coll' idCounter2 bookReq2) = (Some errBookExists, coll').
Proof.
  intros Hc idCounter2 bookReq2 Ht.
  destruct (reachable coll) eqn:Hr.
  - destruct (duplicate_dec coll (newBook bookReq (writtenID coll idCounter bookReq)))
      as [Hdup|Hfresh].
    + rewrite (createBook_duplicate coll idCounter bookReq Hr Hdup) in Hc. discriminate Hc.
    + rewrite (createBook_fresh coll idCounter bookReq Hr Hfresh) in Hc.
      injection Hc as <- _.
      rewrite createBook_duplicate; [reflexivity|exact Hr|].
      exists (newBook bookReq (writtenID coll idCounter bookReq)). split.
      * cbn [docs withDocs]. apply in_or_app. right. now left.
      * apply sameFields_tuple5. symmetry. exact Ht.
  - rewrite (createBook_unreachable coll idCounter bookReq Hr) in Hc. discriminate Hc.
Qed.

Lemma create_twice_is_refused_witness :
  createBook seeded idCounter0 (request "77" "The Raven" "E. A. Poe" "8" "e" "1845")
  = (None,
     withDocs seeded [frankenstein; blackCat; book "77" "The Raven" "E. A. Poe" "e" 8 1845],
     idCounter0) /\
  fst (createBook
         (withDocs seeded
            [frankenstein; blackCat; book "77" "The Raven" "E. A. Poe" "e" 8 1845])
         5 (request "78" "The Raven" "E. A. Poe" "8 pages" "e" "1845"))
  = (Some errBookExists,
     withDocs seeded [frankenstein; blackCat; book "77" "The Raven" "E. A. Poe" "e" 8 1845]).
Proof.
  split; [reflexivity|].
  apply (create_twice_is_refused seeded idCounter0
           (request "77" "The Raven" "E. A. Poe" "8" "e" "1845") _ idCounter0);
    reflexivity.
Defined.

(** X25. Create and delete undo each other: when a create request names
    an identifier that the store does not hold and the create succeeds,
    deleting that identifier afterwards succeeds and gives back the
    store as it was before the create. *)
Theorem create_then_delete coll idCounter bookReq coll' idCounter' :
  Request.ID bookReq <> EmptyString ->
  ~ In (Request.ID bookReq) (ids coll) ->
  createBook coll idCounter bookReq = (None, coll', idCounter') ->
  deleteBook coll' (Request.ID bookReq) = (None, coll).
Proof.
  intros Hid Hnot Hc.
  assert (writtenID coll idCounter bookReq = Request.ID bookReq) as Hw.
  { unfold writtenID. apply String.eqb_neq in Hid. now rewrite Hid. }
  destruct (reachable coll) eqn:Hr.
  - destruct (duplicate_dec coll (newBook bookReq (writtenID coll idCounter bookReq)))
      as [Hdup|Hfresh].
    + rewrite (createBook_duplicate coll idCounter bookReq Hr Hdup) in Hc. discriminate Hc.
    + rewrite (createBook_fresh coll idCounter bookReq Hr Hfresh), Hw in Hc.
      injection Hc as <- _.
      rewrite (deleteBook_present _ _ (docs coll) (newBook bookReq (Request.ID bookReq)) []);
        [|exact Hr|reflexivity|reflexivity|exact Hnot].
      f_equal. destruct coll as [d r f]. unfold withDocs. cbn. now rewrite app_nil_r.
  - rewrite (createBook_unreachable coll idCounter bookReq Hr) in Hc. discriminate Hc.
Qed.

Lemma create_then_delete_witness :
  "77"%string <> EmptyString /\ ~ In "77"%string (ids seeded) /\
  deleteBook
    (withDocs seeded [frankenstein; blackCat; book "77" "The Raven" "E. A. Poe" "e" 8 1845])
    "77"
  = (None, seeded).
Proof.
  split; [discriminate|].
  assert (~ In "77"%string (ids seeded)) as Hnot by (intros [H|[H|[]]]; discriminate H).
  split; [exact Hnot|].
  apply (create_then_delete seeded idCounter0
           (request "77" "The Raven" "E. A. Poe" "8" "e" "1845") _ idCounter0);
    [discriminate|exact Hnot|reflexivity].
Defined.
